(** * Quiz generator: the workflow controller of [src/App.tsx]

    A shallow embedding of the [App] component: the text extractor
    ([extractTextFromFile]), the length check and the generate-quiz pipeline
    ([handleQuizGenerate]), the navigation handlers, and the wiring of the
    handlers to the application phases ([renderContent]).

    Modelling conventions.
    - A JavaScript string is a [string]: a sequence of code units, here
      restricted to the code units below 256.  [length] counts code units,
      as [String.prototype.length] does.
    - A JavaScript [number] used as a count or an index is an integer [Z];
      fractional values and NaN are outside the model.  Sums and
      differences are those of [Z]: they are the binary64 results of the
      code as long as the integers have a magnitude below 2^53, and the
      statements about [index + 1] and [index - 1] are made in that
      range.
    - A handler is a function from the state of the render it closes over to
      the sequence of effects it performs: calls of the React state setters,
      and calls of the collaborators (file reader, decoders, quiz producer).
      The state after the handler is the fold of the setters over the state
      before it. *)

From Stdlib Require Import ZArith Ascii String DecimalString DecimalNat.
From stdpp Require Import base list gmap.

Local Open Scope string_scope.
Local Open Scope Z_scope.

(** ** JavaScript strings and arrays *)

Module Js.

(** [String.prototype.split] with a one-character separator: never
    returns the empty array. *)
Fixpoint split (sep : ascii) (s : string) : list string :=
  match s with
  | EmptyString => [EmptyString]
  | String c s' =>
      if Ascii.eqb c sep then EmptyString :: split sep s'
      else match split sep s' with
           | [] => [String c EmptyString]
           | h :: t => String c h :: t
           end
  end.

(** [String.prototype.includes] with a one-character argument. *)
Fixpoint includes (s : string) (c : ascii) : bool :=
  match s with
  | EmptyString => false
  | String c' s' => Ascii.eqb c' c || includes s' c
  end.

(** [Array.prototype.pop]: the last element, [undefined] on [[]]. *)
Definition pop (l : list string) : option string := last l.

(** [String.prototype.toLowerCase] on the code units below 256: the
    letters A-Z and the Latin-1 capitals U+00C0-U+00DE (U+00D7, the
    multiplication sign, is no letter) move up by 32. *)
Definition lower_char (c : ascii) : ascii :=
  let n := N_of_ascii c in
  if ((65 <=? n) && (n <=? 90)
      || (192 <=? n) && (n <=? 222) && negb (n =? 215))%N
  then ascii_of_N (n + 32) else c.

Fixpoint toLowerCase (s : string) : string :=
  match s with
  | EmptyString => EmptyString
  | String c s' => String (lower_char c) (toLowerCase s')
  end.

(** White space and line terminators of ECMAScript below 256: TAB, LF,
    VT, FF, CR, SPACE, NBSP. *)
Definition is_white (c : ascii) : bool :=
  let n := N_of_ascii c in
  ((9 <=? n) && (n <=? 13) || (n =? 32) || (n =? 160))%N.

Fixpoint trimStart (s : string) : string :=
  match s with
  | EmptyString => EmptyString
  | String c s' => if is_white c then trimStart s' else s
  end.

Fixpoint trimEnd (s : string) : string :=
  match s with
  | EmptyString => EmptyString
  | String c s' =>
      match trimEnd s' with
      | EmptyString => if is_white c then EmptyString else String c EmptyString
      | t => String c t
      end
  end.

(** [String.prototype.trim]. *)
Definition trim (s : string) : string := trimEnd (trimStart s).

(** The shape of a trimmed string: white space at neither end. *)
Fixpoint all_white (s : string) : bool :=
  match s with
  | EmptyString => true
  | String c s' => is_white c && all_white s'
  end.

Definition starts_white (s : string) : bool :=
  match s with
  | EmptyString => false
  | String c _ => is_white c
  end.

Fixpoint ends_white (s : string) : bool :=
  match s with
  | EmptyString => false
  | String c EmptyString => is_white c
  | String _ s' => ends_white s'
  end.

(** The first [n] code units of [s], all of [s] when it is shorter. *)
Fixpoint take (n : nat) (s : string) : string :=
  match n, s with
  | S n', String c s' => String c (take n' s')
  | _, _ => EmptyString
  end.

Fixpoint skip (n : nat) (s : string) : string :=
  match n, s with
  | S n', String _ s' => skip n' s'
  | _, _ => s
  end.

(** [String.prototype.substring(start, end)] for non-negative integer
    arguments: the arguments are swapped when [start > end], and both are
    clamped to the length. *)
Definition substring (s : string) (from to : nat) : string :=
  let lo := Nat.min from to in
  let hi := Nat.max from to in
  take (hi - lo) (skip lo s).

(** [Array.prototype.join] of strings. *)
Fixpoint join (sep : string) (l : list string) : string :=
  match l with
  | [] => EmptyString
  | [x] => x
  | x :: l' => x ++ sep ++ join sep l'
  end.

(** A number in a template literal: its decimal digits. *)
Definition of_nat (n : nat) : string :=
  NilEmpty.string_of_uint (Nat.to_uint n).

(** An array of strings.  [elems] are the elements at the array indices
    [0 .. length-1]; [None] is [undefined] (a hole reads as [undefined]
    too).  [props] are the properties whose key is an integer that is no
    array index: an assignment [a[k] = v] with such a [k] creates an
    ordinary property and leaves the elements and the length alone. *)
Record Array := mkArray {
  elems : list (option string);
  props : gmap Z string
}.

(** An integer is an array index when it lies in [0, 2^32 - 1). *)
Definition is_index (k : Z) : bool := (0 <=? k) && (k <? 2 ^ 32 - 1).

Definition alength (a : Array) : Z := Z.of_nat (length (elems a)).

(** [a[k]] *)
Definition get (a : Array) (k : Z) : option string :=
  if is_index k then mjoin (elems a !! Z.to_nat k) else props a !! k.

(** [a[k] = v]: inside the array the element is replaced; past its end
    the array grows, the skipped positions being holes. *)
Definition set (a : Array) (k : Z) (v : string) : Array :=
  if is_index k then
    let i := Z.to_nat k in
    if (i <? length (elems a))%nat
    then mkArray (<[i := Some v]> (elems a)) (props a)
    else mkArray (elems a ++ replicate (i - length (elems a)) None ++ [Some v])
                 (props a)
  else mkArray (elems a) (<[k := v]> (props a)).

(** [[...a]]: the array iterator visits the indices below the length
    only, so the copy has the elements and none of the other
    properties. *)
Definition spread (a : Array) : Array := mkArray (elems a) ∅.

(** [new Array(n).fill(v)] *)
Definition filled (n : nat) (v : string) : Array :=
  mkArray (replicate n (Some v)) ∅.

(** [[]] *)
Definition empty : Array := mkArray [] ∅.

End Js.

(** ** Data model ([types.ts]) *)

Record QuizQuestion := mkQuestion {
  question : string;
  options : list string;
  correctAnswer : string
}.

Inductive AppState := setup | generating | quiz | review | results.

(** The six [useState] cells of [App]. *)
Record App := mkApp {
  appState : AppState;
  quizQuestions : list QuizQuestion;
  userAnswers : Js.Array;
  currentQuestionIndex : Z;
  timerDuration : Z;
  error : option string
}.

(** The state of the first render. *)
Definition initial : App := mkApp setup [] Js.empty 0 30 None.

(** ** Collaborators *)

(** A thrown value, as far as [err instanceof Error] tells. *)
Inductive Thrown :=
| JsError (message : string)
| NotAnError.

(** What [FileReader.readAsArrayBuffer] ends in: [onerror], or [onload]
    with [event.target?.result], [None] when that is falsy. *)
Inductive ReadOutcome :=
| onerror
| onload (result : option (list Byte.byte)).

Record File := mkFile {
  name : string;
  read : ReadOutcome
}.

(** The parts of pdf.js that the extractor touches: [getTextContent]
    settles with the [str] of each item. *)
Record PdfPage := mkPage {
  getTextContent : Thrown + list string
}.

Record PdfDocument := mkPdf {
  numPages : nat;
  getPage : nat -> Thrown + PdfPage
}.

(** ** Effects *)

Inductive Effect :=
| setAppState (a : AppState)
| setQuizQuestions (qs : list QuizQuestion)
| setUserAnswers (a : Js.Array)
| setCurrentQuestionIndex (i : Z)
| setTimerDuration (d : Z)
| setError (e : option string)
| readAsArrayBuffer (f : File)
| pdf_getDocument (data : list Byte.byte)
| pdf_getPage (i : nat)
| page_getTextContent (i : nat)
| mammoth_extractRawText (data : list Byte.byte)
| call_generateQuizFromText (text : string) (numQuestions : Z)
| console_error.

(** A setter replaces its cell; the other effects leave the state alone. *)
Definition apply_effect (s : App) (e : Effect) : App :=
  match e with
  | setAppState a =>
      mkApp a (quizQuestions s) (userAnswers s) (currentQuestionIndex s)
            (timerDuration s) (error s)
  | setQuizQuestions qs =>
      mkApp (appState s) qs (userAnswers s) (currentQuestionIndex s)
            (timerDuration s) (error s)
  | setUserAnswers a =>
      mkApp (appState s) (quizQuestions s) a (currentQuestionIndex s)
            (timerDuration s) (error s)
  | setCurrentQuestionIndex i =>
      mkApp (appState s) (quizQuestions s) (userAnswers s) i
            (timerDuration s) (error s)
  | setTimerDuration d =>
      mkApp (appState s) (quizQuestions s) (userAnswers s)
            (currentQuestionIndex s) d (error s)
  | setError e =>
      mkApp (appState s) (quizQuestions s) (userAnswers s)
            (currentQuestionIndex s) (timerDuration s) e
  | _ => s
  end.

(** The state after a sequence of effects. *)
Definition run_effects (s : App) (l : list Effect) : App :=
  foldl apply_effect s l.

(** Every state on the way: the state before the first effect and the
    state after each one. *)
Fixpoint states (s : App) (l : list Effect) : list App :=
  s :: match l with
       | [] => []
       | e :: l' => states (apply_effect s e) l'
       end.

(** The session part of the state. *)
Definition session (s : App)
  : list QuizQuestion * Js.Array * Z * Z :=
  (quizQuestions s, userAnswers s, currentQuestionIndex s, timerDuration s).

(** ** Computations that log their effects and may throw *)

Definition Run (A : Type) : Type := list Effect * (Thrown + A).

Definition ret {A} (a : A) : Run A := ([], inr a).

Definition throw {A} (t : Thrown) : Run A := ([], inl t).

Definition bind {A B} (m : Run A) (k : A -> Run B) : Run B :=
  match m with
  | (l, inl t) => (l, inl t)
  | (l, inr a) => let '(l', r) := k a in ((l ++ l')%list, r)
  end.

Definition perform (e : Effect) : Run unit := ([e], inr tt).

(** [await] of a collaborator's promise: the call is logged, a rejection is
    thrown. *)
Definition await {A} (e : Effect) (r : Thrown + A) : Run A := ([e], r).

(** [try { m } catch (err) { h err }] *)
Definition try_catch {A} (m : Run A) (h : Thrown -> Run A) : Run A :=
  match m with
  | (l, inl t) => let '(l', r) := h t in ((l ++ l')%list, r)
  | (l, inr a) => (l, inr a)
  end.

Notation "'let*' x ':=' m 'in' k" := (bind m (fun x => k))
  (at level 10, x name, m at level 100, k at level 200).
Notation "m ';;' k" := (bind m (fun _ => k))
  (at level 100, k at level 200, right associativity).

Definition trace {A} (m : Run A) : list Effect := fst m.
Definition outcome {A} (m : Run A) : Thrown + A := snd m.

(** ** Messages of the pipeline's failures *)

Definition LF : string := String "010"%char EmptyString.
Definition dquote : string := String "034"%char EmptyString.

(** [UnsupportedFormat] *)
Definition msg_unsupported : string :=
  "Unsupported file type. Please upload a PDF, DOC, or DOCX file.".

(** [ReadFailure]: the reader's [onerror], and an [onload] without
    result. *)
Definition msg_read_error : string :=
  "An error occurred while reading the file.".
Definition msg_no_result : string := "Failed to read file.".

(** [ParseFailure], one message per decoder. *)
Definition msg_parse_pdf : string :=
  "Failed to parse the PDF. It might be corrupted, password-protected, or in an unsupported format.".
Definition msg_parse_word : string :=
  "Failed to parse the Word document. It might be corrupted or password-protected.".

(** [TooShort(length, snippet)] *)
Definition msg_too_short (len : nat) (snippet : string) : string :=
  "Document content is too short (" ++ Js.of_nat len
  ++ " characters) to generate a meaningful quiz. This can happen if the document is very brief or is image-based from which text cannot be extracted."
  ++ LF ++ LF ++ "Extracted text snippet: " ++ dquote ++ snippet ++ "..."
  ++ dquote.

Definition msg_unknown : string :=
  "An unknown error occurred while generating the quiz.".

(** ** The component *)

Section App.

(** The globals [pdfjsLib] and [mammoth] and the imported quiz producer:
    each call settles with a value or rejects. *)
Variable getDocument : list Byte.byte -> Thrown + PdfDocument.
Variable extractRawText : list Byte.byte -> Thrown + string.
Variable generateQuizFromText : string -> Z -> Thrown + list QuizQuestion.

(** [file.name.split('.').pop()?.toLowerCase()] *)
Definition extension (f : File) : option string :=
  Js.toLowerCase <$> Js.pop (Js.split "." (name f)).

Definition is_ext (e : option string) (tag : string) : bool :=
  bool_decide (e = Some tag).

(** The [for] loop over the pages: [pages] are the values of [i] still
    to come. *)
Fixpoint pdf_loop (pdf : PdfDocument) (pages : list nat) (fullText : string)
  : Run string :=
  match pages with
  | [] => ret fullText
  | i :: rest =>
      let* page := await (pdf_getPage i) (getPage pdf i) in
      let* textContent := await (page_getTextContent i) (getTextContent page) in
      let pageText := Js.join " " textContent in
      pdf_loop pdf rest (fullText ++ pageText ++ LF ++ LF)
  end.

(** The body of the [try] in [onload].  Its value tells how the promise
    is settled: [inr fullText] by [resolve], [inl e] by [reject] (the
    unsupported type is rejected, not thrown, so the [catch] does not see
    it). *)
Definition decode (ext : option string) (arrayBuffer : list Byte.byte)
  : Run (Thrown + string) :=
  if is_ext ext "pdf" then
    let* pdf := await (pdf_getDocument arrayBuffer) (getDocument arrayBuffer) in
    let* fullText := pdf_loop pdf (seq 1 (numPages pdf)) "" in
    ret (inr fullText)
  else if is_ext ext "docx" || is_ext ext "doc" then
    let* value := await (mammoth_extractRawText arrayBuffer)
                        (extractRawText arrayBuffer) in
    ret (inr value)
  else ret (inl (JsError msg_unsupported)).

(** The [catch] in [onload]. *)
Definition decode_failed (ext : option string) (_ : Thrown)
  : Run (Thrown + string) :=
  perform console_error;;
  if is_ext ext "pdf" then ret (inl (JsError msg_parse_pdf))
  else ret (inl (JsError msg_parse_word)).

Definition settle {A} (r : Thrown + A) : Run A :=
  match r with
  | inl e => throw e
  | inr a => ret a
  end.

Definition extractTextFromFile (file : File) : Run string :=
  let ext := extension file in
  perform (readAsArrayBuffer file);;
  match read file with
  | onerror =>
      perform console_error;;
      throw (JsError msg_read_error)
  | onload None => throw (JsError msg_no_result)
  | onload (Some arrayBuffer) =>
      let* r := try_catch (decode ext arrayBuffer) (decode_failed ext) in
      settle r
  end.

(** The length check of [handleQuizGenerate] (the [trim] and the [if]
    that throws). *)
Definition validate (fileText : string) : Run unit :=
  let trimmedText := Js.trim fileText in
  if (String.length trimmedText <? 100)%nat then
    let snippet := Js.substring trimmedText 0 100 in
    throw (JsError (msg_too_short (String.length trimmedText) snippet))
  else ret tt.

(** The body of the [try] in [handleQuizGenerate]. *)
Definition generate (file : File) (numQuestions duration : Z) : Run unit :=
  let* fileText := extractTextFromFile file in
  validate fileText;;
  let* questions := await (call_generateQuizFromText fileText numQuestions)
                          (generateQuizFromText fileText numQuestions) in
  perform (setQuizQuestions questions);;
  perform (setUserAnswers (Js.filled (length questions) ""));;
  perform (setTimerDuration duration);;
  perform (setCurrentQuestionIndex 0);;
  perform (setAppState quiz).

Definition errorMessage (err : Thrown) : string :=
  match err with
  | JsError message => message
  | NotAnError => msg_unknown
  end.

(** The [catch] in [handleQuizGenerate]. *)
Definition generate_failed (err : Thrown) : Run unit :=
  perform console_error;;
  perform (setError (Some (errorMessage err)));;
  perform (setAppState setup).

Definition handleQuizGenerate (file : File) (numQuestions duration : Z)
  : list Effect :=
  trace (perform (setAppState generating);;
         perform (setError None);;
         try_catch (generate file numQuestions duration) generate_failed).

(** The handlers below close over the state [s] of the current render. *)

Definition handleAnswerSelect (s : App) (answer : string) : list Effect :=
  let newAnswers := Js.spread (userAnswers s) in
  let newAnswers := Js.set newAnswers (currentQuestionIndex s) answer in
  [setUserAnswers newAnswers].

(** [currentQuestionIndex + 1] and [currentQuestionIndex - 1] below are
    exact for an index of magnitude below 2^53; beyond, the code rounds
    to the nearest binary64 number. *)
Definition handleNextQuestion (s : App) : list Effect :=
  if currentQuestionIndex s <? Z.of_nat (length (quizQuestions s)) - 1
  then [setCurrentQuestionIndex (currentQuestionIndex s + 1)]
  else [].

Definition handlePrevQuestion (s : App) : list Effect :=
  if currentQuestionIndex s >? 0
  then [setCurrentQuestionIndex (currentQuestionIndex s - 1)]
  else [].

Definition handleQuizFinish : list Effect := [setAppState review].

Definition handleFinalSubmit : list Effect := [setAppState results].

Definition handleJumpToQuestion (index : Z) : list Effect :=
  [setCurrentQuestionIndex index; setAppState quiz].

Definition handleRetry : list Effect :=
  [setQuizQuestions []; setUserAnswers Js.empty; setCurrentQuestionIndex 0;
   setError None; setAppState setup].

(** What the user can do: the callbacks of the view that
    [renderContent] mounts. *)
Inductive Event :=
| onGenerate (file : File) (numQuestions duration : Z)
| onAnswerSelect (answer : string)
| onNext
| onPrev
| onFinish
| onFinalSubmit
| onJumpToQuestion (index : Z)
| onRetry.

(** [renderContent]: the view of each phase and the handlers it is
    given.  The spinner of [generating] has none, so no event interleaves
    with a pipeline run. *)
Definition renderContent (s : App) (e : Event) : option (list Effect) :=
  match appState s, e with
  | generating, _ => None
  | quiz, onAnswerSelect answer => Some (handleAnswerSelect s answer)
  | quiz, onNext => Some (handleNextQuestion s)
  | quiz, onPrev => Some (handlePrevQuestion s)
  | quiz, onFinish => Some handleQuizFinish
  | review, onFinalSubmit => Some handleFinalSubmit
  | review, onJumpToQuestion index => Some (handleJumpToQuestion index)
  | results, onRetry => Some handleRetry
  | setup, onGenerate file numQuestions duration =>
      Some (handleQuizGenerate file numQuestions duration)
  | _, _ => None
  end.

(** One event: the handler runs and its setters are applied. *)
Definition step (s : App) (e : Event) : option App :=
  run_effects s <$> renderContent s e.

Fixpoint steps (s : App) (es : list Event) : option App :=
  match es with
  | [] => Some s
  | e :: es' =>
      match step s e with
      | Some s' => steps s' es'
      | None => None
      end
  end.

(** The three ways in which a pipeline run fails: in the extraction, in
    the length check, or in the generation. *)
Definition pipeline_fails (file : File) (numQuestions : Z) (t : Thrown) : Prop :=
  outcome (extractTextFromFile file) = inl t
  ∨ ∃ fileText,
      outcome (extractTextFromFile file) = inr fileText
      ∧ (outcome (validate fileText) = inl t
         ∨ outcome (validate fileText) = inr tt
           ∧ generateQuizFromText fileText numQuestions = inl t).

(** What the handlers leave to their callers: the review view jumps to a
    question that exists, and the producer answers a request with at least
    one question. *)
Definition guarded (s : App) (e : Event) : Prop :=
  match e with
  | onJumpToQuestion index =>
      0 ≤ index < Z.of_nat (length (quizQuestions s))
  | onGenerate file numQuestions _ =>
      ∀ fileText, outcome (extractTextFromFile file) = inr fileText →
                  generateQuizFromText fileText numQuestions ≠ inr []
  | _ => True
  end.

(** A run all of whose events are guarded in the state they arrive in. *)
Fixpoint guarded_steps (s : App) (es : list Event) : Prop :=
  match es with
  | [] => True
  | e :: es' =>
      guarded s e ∧
      match step s e with
      | Some s' => guarded_steps s' es'
      | None => True
      end
  end.

End App.

(** ** Vocabulary of the specification *)

(** The text tokens of page [i], when the page decodes. *)
Definition page_tokens (pdf : PdfDocument) (i : nat) : option (list string) :=
  match getPage pdf i with
  | inr page =>
      match getTextContent page with
      | inr items => Some items
      | inl _ => None
      end
  | inl _ => None
  end.

(** The tokens of each page joined by single spaces, the pages separated
    by a blank line. *)
Definition pages_separated (pages : list (list string)) : string :=
  Js.join (LF ++ LF) (map (Js.join " ") pages).

(** The tokens of each page joined by single spaces, each page followed by
    a blank line. *)
Fixpoint pages_terminated (pages : list (list string)) : string :=
  match pages with
  | [] => EmptyString
  | p :: rest => Js.join " " p ++ LF ++ LF ++ pages_terminated rest
  end.

(** The number that a run of decimal digits shows, read digit by digit
    from the left; [None] when there is no digit or another character. *)
Definition digit_value (c : ascii) : option nat :=
  let n := nat_of_ascii c in
  if ((48 <=? n) && (n <=? 57))%nat then Some (n - 48)%nat else None.

Fixpoint digits_value (s : string) (acc : nat) : option nat :=
  match s with
  | EmptyString => Some acc
  | String c s' =>
      match digit_value c with
      | Some v => digits_value s' (10 * acc + v)%nat
      | None => None
      end
  end.

Definition number_shown (s : string) : option nat :=
  match s with
  | EmptyString => None
  | _ => digits_value s 0
  end.

(** The effects that write a state cell. *)
Definition is_setter (e : Effect) : bool :=
  match e with
  | setAppState _ | setQuizQuestions _ | setUserAnswers _
  | setCurrentQuestionIndex _ | setTimerDuration _ | setError _ => true
  | _ => false
  end.

(** The effects that call a decoder. *)
Definition is_pdf_call (e : Effect) : bool :=
  match e with
  | pdf_getDocument _ | pdf_getPage _ | page_getTextContent _ => true
  | _ => false
  end.

Definition is_word_call (e : Effect) : bool :=
  match e with
  | mammoth_extractRawText _ => true
  | _ => false
  end.

Definition is_read (e : Effect) : bool :=
  match e with
  | readAsArrayBuffer _ => true
  | _ => false
  end.

(** The effects that write a cell of the session. *)
Definition writes_session (e : Effect) : bool :=
  match e with
  | setQuizQuestions _ | setUserAnswers _ | setCurrentQuestionIndex _
  | setTimerDuration _ => true
  | _ => false
  end.

(** The invariant of the session. *)
Definition in_quiz_or_review (s : App) : Prop :=
  appState s = quiz ∨ appState s = review.

Definition index_in_range (s : App) : Prop :=
  0 ≤ currentQuestionIndex s < Z.of_nat (length (quizQuestions s)).

Definition answers_aligned (s : App) : Prop :=
  Js.alength (userAnswers s) = Z.of_nat (length (quizQuestions s)).

Definition session_invariant (s : App) : Prop :=
  in_quiz_or_review s → index_in_range s ∧ answers_aligned s.

(** A freshly installed session: what a successful pipeline run leaves. *)
Definition freshly_installed (s : App) : Prop :=
  ∃ questions duration,
    s = mkApp quiz questions (Js.filled (length questions) "") 0 duration None.

(** The extensions that have a decoder. *)
Definition supported (ext : option string) : Prop :=
  ext = Some "pdf" ∨ ext = Some "doc" ∨ ext = Some "docx".

(** ** Vocabulary of the further properties *)

(** The effects that call the quiz producer, that log, and that open a
    document with a decoder. *)
Definition is_producer_call (e : Effect) : bool :=
  match e with
  | call_generateQuizFromText _ _ => true
  | _ => false
  end.

Definition is_log (e : Effect) : bool :=
  match e with
  | console_error => true
  | _ => false
  end.

Definition is_phase_setter (e : Effect) : bool :=
  match e with
  | setAppState _ => true
  | _ => false
  end.

(** The two calls that decode page [i]. *)
Definition page_calls (i : nat) : list Effect :=
  [pdf_getPage i; page_getTextContent i].

(** The calls that the loop makes on a page that fails to decode. *)
Definition failing_page_calls (pdf : PdfDocument) (i : nat) : list Effect :=
  match getPage pdf i with
  | inl _ => [pdf_getPage i]
  | inr _ => [pdf_getPage i; page_getTextContent i]
  end.

(** Every token of every page is white space (or there is none). *)
Definition no_visible_text (toks : list (list string)) : Prop :=
  Forall (Forall (λ tok, Js.all_white tok = true)) toks.

(** The state [s] with another index, and with another phase. *)
Definition with_index (s : App) (i : Z) : App :=
  mkApp (appState s) (quizQuestions s) (userAnswers s) i (timerDuration s)
        (error s).

Definition with_phase (s : App) (a : AppState) : App :=
  mkApp a (quizQuestions s) (userAnswers s) (currentQuestionIndex s)
        (timerDuration s) (error s).

(** The arrows of the phase diagram. *)
Definition transition (a b : AppState) : bool :=
  match a, b with
  | setup, setup | setup, quiz
  | quiz, quiz | quiz, review
  | review, quiz | review, results
  | results, setup => true
  | _, _ => false
  end.

(** The events that neither start a pipeline run nor reset the session. *)
Definition within_quiz (e : Event) : bool :=
  match e with
  | onGenerate _ _ _ | onRetry => false
  | _ => true
  end.

(** The events that move between questions and phases only. *)
Definition is_navigation (e : Event) : bool :=
  match e with
  | onNext | onPrev | onFinish | onFinalSubmit | onJumpToQuestion _ => true
  | _ => false
  end.

(** ** A concrete environment

    Fake decoders and a fake producer, in the way of a test double: the
    PDF decoder rejects an empty buffer, and otherwise yields a two-page
    document whose second page fails to decode when the buffer starts with
    a zero byte; the Word decoder rejects an empty buffer; the producer
    rejects a request for no questions with a thrown string, a request for
    a negative count with an [Error], and otherwise answers with two
    questions. *)

Module Demo.

Definition page1 : list string :=
  ["The"; "quick"; "brown"; "fox"; "jumps"; "over"; "the"; "lazy"; "dog";
   "and"; "keeps"; "running"; "through"; "the"; "forest"].

Definition page2 : list string :=
  ["A"; "second"; "page"; "with"; "enough"; "words"; "to"; "pass"; "the";
   "length"; "check"; "of"; "the"; "controller"].

Definition document (b : Byte.byte) : PdfDocument :=
  mkPdf 2 (fun i =>
    if (i =? 1)%nat then inr (mkPage (inr page1))
    else if Byte.eqb b Byte.x00 then inl (JsError "Bad page.")
    else inr (mkPage (inr page2))).

Definition getDocument (data : list Byte.byte) : Thrown + PdfDocument :=
  match data with
  | [] => inl (JsError "Invalid PDF structure.")
  | b :: _ => inr (document b)
  end.

Definition extractRawText (data : list Byte.byte) : Thrown + string :=
  match data with
  | [] => inl (JsError "Could not find the body of the document.")
  | _ => inr "short doc"
  end.

Definition q1 : QuizQuestion :=
  mkQuestion "Who jumps over the dog?" ["The fox"; "The cat"] "The fox".
Definition q2 : QuizQuestion :=
  mkQuestion "Where does it run?" ["The forest"; "The city"] "The forest".

Definition generateQuizFromText (text : string) (numQuestions : Z)
  : Thrown + list QuizQuestion :=
  if numQuestions =? 0 then inl NotAnError
  else if numQuestions <? 0 then inl (JsError "The request failed.")
  else inr [q1; q2].

Definition good_pdf : File := mkFile "Notes.PDF" (onload (Some [Byte.x25])).
Definition bad_pdf : File := mkFile "notes.pdf" (onload (Some [Byte.x00])).
Definition word_doc : File := mkFile "essay.docx" (onload (Some [Byte.x50])).
Definition text_file : File := mkFile "notes.txt" (onload (Some [Byte.x41])).
Definition lost_text_file : File := mkFile "notes.txt" onerror.
Definition bare_pdf : File := mkFile "pdf" (onload (Some [Byte.x25])).

(** A producer that answers every request with no question at all. *)
Definition no_questions (text : string) (numQuestions : Z)
  : Thrown + list QuizQuestion := inr [].

Definition extract := extractTextFromFile getDocument extractRawText.
Definition handle := handleQuizGenerate getDocument extractRawText
                                        generateQuizFromText.
Definition fire := step getDocument extractRawText generateQuizFromText.
Definition fire_all := steps getDocument extractRawText generateQuizFromText.

(** A tour through all the phases and back into a second quiz. *)
Definition tour : list Event :=
  [onAnswerSelect "The fox"; onNext; onFinish; onJumpToQuestion 0;
   onFinish; onFinalSubmit; onRetry; onGenerate good_pdf 2 60; onNext].

(** The text of the two pages of [good_pdf]. *)
Definition good_text : string := pages_terminated [page1; page2].

(** The session installed by a successful run on [good_pdf]. *)
Definition installed : App := run_effects initial (handle good_pdf 2 30).

(** A scanned document: three pages, none with visible text, and the
    decoder that opens it. *)
Definition scanned_document : PdfDocument :=
  mkPdf 3 (fun i =>
    inr (mkPage (inr (if (i =? 2)%nat then [" "; ""] else [])))).

Definition open_scan (data : list Byte.byte) : Thrown + PdfDocument :=
  inr scanned_document.

Definition scan : File := mkFile "scan.pdf" (onload (Some [Byte.x25])).

(** Files that their decoder rejects, and [good_pdf] under a lower-case
    name. *)
Definition broken_pdf : File := mkFile "broken.pdf" (onload (Some [])).
Definition broken_doc : File := mkFile "broken.doc" (onload (Some [])).

(** A quiz state whose index is past the two answers, and one whose index
    is negative. *)
Definition past_the_end : App :=
  mkApp quiz [q1; q2] (Js.filled 2 "") 4 30 None.
Definition before_the_start : App :=
  mkApp quiz [q1; q2] (Js.filled 2 "") (-1) 30 None.

(** A quiz state whose index is the first integer that is no array
    index. *)
Definition beyond_the_indices : App :=
  mkApp quiz [q1; q2] (Js.filled 2 "") 4294967295 30 None.

End Demo.

(** * Properties *)

(** ** Strings *)

Lemma split_nonempty sep s : Js.split sep s ≠ [].
Proof.
  destruct s as [|c s]; simpl; [done|].
  destruct (Ascii.eqb c sep); [done|].
  by destruct (Js.split sep s).
Qed.

Lemma split_no_separator sep s :
  Js.includes s sep = false → Js.split sep s = [s].
Proof.
  induction s as [|c s IH]; simpl; [done|].
  intros [Hc Hs]%orb_false_iff. rewrite Hc, (IH Hs). done.
Qed.

Lemma split_at_separator sep pre suf :
  Js.split sep (pre ++ String sep suf) = (Js.split sep pre ++ Js.split sep suf)%list.
Proof.
  induction pre as [|c pre IH]; simpl.
  - by rewrite Ascii.eqb_refl.
  - destruct (Ascii.eqb c sep); [by rewrite IH|].
    rewrite IH. pose proof (split_nonempty sep pre).
    by destruct (Js.split sep pre).
Qed.

Lemma pop_split_last sep pre suf :
  Js.includes suf sep = false →
  Js.pop (Js.split sep (pre ++ String sep suf)) = Some suf.
Proof.
  intros Hsuf. unfold Js.pop.
  by rewrite split_at_separator, last_app, (split_no_separator _ _ Hsuf).
Qed.

Lemma take_min n s : Js.take n s = Js.take (n `min` String.length s) s.
Proof.
  revert s. induction n as [|n IH]; intros [|c s]; simpl; try done.
  by rewrite <- IH.
Qed.

Lemma take_all n s : (String.length s ≤ n)%nat → Js.take n s = s.
Proof.
  revert s. induction n as [|n IH]; intros [|c s]; simpl; try done; try lia.
  intros H. rewrite IH; [done|lia].
Qed.

Lemma substring_from_0 s n : Js.substring s 0 n = Js.take n s.
Proof.
  unfold Js.substring. rewrite Nat.min_0_l, Nat.max_0_l, Nat.sub_0_r.
  by destruct s.
Qed.

Lemma trimStart_white ws s :
  Js.all_white ws = true → Js.trimStart (ws ++ s) = Js.trimStart s.
Proof.
  induction ws as [|c ws IH]; [done|]. simpl.
  intros [Hc Hws]%andb_true_iff.
  change (String c ws ++ s) with (String c (ws ++ s)). simpl.
  rewrite Hc. by apply IH.
Qed.

Lemma trimStart_black s : Js.starts_white s = false → Js.trimStart s = s.
Proof. destruct s as [|c s]; simpl; [done|]. by intros ->. Qed.

Lemma trimEnd_white ws : Js.all_white ws = true → Js.trimEnd ws = EmptyString.
Proof.
  induction ws as [|c ws IH]; [done|]. simpl.
  intros [Hc Hws]%andb_true_iff. by rewrite (IH Hws), Hc.
Qed.

Lemma trimEnd_black s ws :
  Js.ends_white s = false → Js.all_white ws = true →
  Js.trimEnd (s ++ ws) = s.
Proof.
  intros Hs Hws. induction s as [|c s IH]; [by apply trimEnd_white|].
  change (String c s ++ ws) with (String c (s ++ ws)). simpl.
  destruct s as [|c' s].
  - change (EmptyString ++ ws) with ws. rewrite (trimEnd_white _ Hws).
    simpl in Hs. by rewrite Hs.
  - rewrite IH by done. done.
Qed.

(** [trim] removes the white space at both ends and nothing else. *)
Lemma trim_strips_white_ends ws1 core ws2 :
  Js.all_white ws1 = true → Js.all_white ws2 = true →
  Js.starts_white core = false → Js.ends_white core = false →
  Js.trim (ws1 ++ core ++ ws2) = core.
Proof.
  intros H1 H2 Hs He. unfold Js.trim. rewrite (trimStart_white _ _ H1).
  destruct core as [|c core].
  - change (EmptyString ++ ws2) with ws2.
    assert (Js.trimStart ws2 = EmptyString) as ->; [|done].
    clear -H2. induction ws2 as [|c ws IH]; [done|]. simpl in *.
    apply andb_true_iff in H2 as [-> Hws]. by apply IH.
  - rewrite trimStart_black.
    + by apply trimEnd_black.
    + done.
Qed.

Example split_runs :
  Js.split "." "a.b.c" = ["a"; "b"; "c"]
  ∧ Js.split "." "" = [""]
  ∧ Js.split "." "report." = ["report"; ""]
  ∧ Js.pop (Js.split "." ".bashrc") = Some "bashrc".
Proof. by repeat split. Qed.

Example toLowerCase_runs : Js.toLowerCase "Notes.PDF" = "notes.pdf".
Proof. reflexivity. Qed.

Example trim_runs :
  Js.trim ("  short doc " ++ LF) = "short doc" ∧ Js.trim "   " = "".
Proof. by split. Qed.

Example substring_runs :
  Js.substring "short doc" 0 100 = "short doc"
  ∧ Js.substring "short doc" 0 5 = "short"
  ∧ Js.substring "short doc" 9 6 = "doc".
Proof. by repeat split. Qed.

(** ** Arrays *)

Example set_runs :
  Js.set (Js.filled 2 "") 1 "b" = Js.mkArray [Some ""; Some "b"] ∅
  ∧ Js.set (Js.filled 2 "") 4 "e"
    = Js.mkArray [Some ""; Some ""; None; None; Some "e"] ∅
  ∧ Js.elems (Js.set (Js.filled 2 "") (-1) "z") = [Some ""; Some ""]
  ∧ Js.get (Js.set (Js.filled 2 "") (-1) "z") (-1) = Some "z".
Proof. by repeat split. Qed.

Lemma get_set_eq a k v : Js.get (Js.set a k v) k = Some v.
Proof.
  unfold Js.get, Js.set. destruct (Js.is_index k) eqn:Hk; simpl.
  - destruct (Nat.ltb_spec (Z.to_nat k) (length (Js.elems a))) as [Hlt|Hge];
      simpl.
    + by rewrite list_lookup_insert_eq.
    + rewrite lookup_app_r by done.
      rewrite lookup_app_r by (rewrite length_replicate; lia).
      rewrite length_replicate, Nat.sub_diag. done.
  - by rewrite lookup_insert_eq.
Qed.

Lemma get_set_ne a k j v :
  Js.is_index j = true → j ≠ k → Js.get (Js.set a k v) j = Js.get a j.
Proof.
  intros Hj Hne. unfold Js.get, Js.set. rewrite Hj.
  destruct (Js.is_index k) eqn:Hk; simpl; [|done].
  assert (Z.to_nat k ≠ Z.to_nat j) as Hnat.
  { unfold Js.is_index in *. lia. }
  destruct (Nat.ltb_spec (Z.to_nat k) (length (Js.elems a))) as [Hlt|Hge];
    simpl.
  - by rewrite list_lookup_insert_ne.
  - destruct (Nat.lt_ge_cases (Z.to_nat j) (length (Js.elems a))) as [Hin|Hout].
    + by rewrite lookup_app_l.
    + rewrite lookup_app_r by done.
      rewrite (lookup_ge_None_2 (Js.elems a)) by done.
      destruct (Nat.lt_ge_cases (Z.to_nat j) (Z.to_nat k)) as [Hlo|Hhi].
      * rewrite lookup_app_l by (rewrite length_replicate; lia).
        rewrite lookup_replicate_2 by lia. done.
      * rewrite lookup_ge_None_2; [done|].
        rewrite length_app, length_replicate. simpl. lia.
Qed.

Lemma set_spread_twice a k v1 v2 :
  Js.set (Js.spread (Js.set (Js.spread a) k v1)) k v2 = Js.set (Js.spread a) k v2.
Proof.
  unfold Js.set, Js.spread. destruct (Js.is_index k) eqn:Hk; simpl.
  - destruct (Nat.ltb_spec (Z.to_nat k) (length (Js.elems a))) as [Hlt|Hge];
      simpl.
    + rewrite length_insert.
      destruct (Nat.ltb_spec (Z.to_nat k) (length (Js.elems a))); [|lia].
      by rewrite list_insert_insert_eq.
    + rewrite !length_app, length_replicate. simpl.
      destruct (Nat.ltb_spec (Z.to_nat k)
                  (length (Js.elems a) + (Z.to_nat k - length (Js.elems a) + 1)));
        [|lia].
      f_equal. rewrite insert_app_r_alt by done.
      rewrite insert_app_r_alt by (rewrite length_replicate; lia).
      rewrite length_replicate, Nat.sub_diag. done.
  - done.
Qed.

Lemma length_set_inside a k v :
  0 ≤ k < Js.alength a → Js.alength (Js.set a k v) = Js.alength a.
Proof.
  unfold Js.alength, Js.set. intros Hk.
  destruct (Js.is_index k); [|done].
  destruct (Nat.ltb_spec (Z.to_nat k) (length (Js.elems a))); [|lia].
  simpl. by rewrite length_insert.
Qed.

Lemma string_app_assoc (a b c : string) : (a ++ b) ++ c = a ++ b ++ c.
Proof.
  induction a as [|x a IH]; [done|].
  change (String x ((a ++ b) ++ c) = String x (a ++ b ++ c)). congruence.
Qed.

Lemma string_app_empty_r (a : string) : a ++ EmptyString = a.
Proof.
  induction a as [|x a IH]; [done|].
  change (String x (a ++ EmptyString) = String x a). congruence.
Qed.

(** ** Effects and states *)

Lemma run_effects_app s l1 l2 :
  run_effects s (l1 ++ l2) = run_effects (run_effects s l1) l2.
Proof. apply foldl_app. Qed.

Lemma apply_not_setter s e : is_setter e = false → apply_effect s e = s.
Proof. by destruct e. Qed.

Lemma run_no_setter s l :
  Forall (λ e, is_setter e = false) l → run_effects s l = s.
Proof.
  induction 1 as [|e l He _ IH]; simpl; [done|].
  unfold run_effects in *. simpl. by rewrite apply_not_setter.
Qed.

Lemma states_app s l1 l2 :
  states s (l1 ++ l2) = (states s l1 ++ tail (states (run_effects s l1) l2))%list.
Proof.
  revert s. induction l1 as [|e l1 IH]; intros s; simpl.
  - by destruct l2.
  - by rewrite IH.
Qed.

Lemma states_no_setter s l :
  Forall (λ e, is_setter e = false) l → Forall (λ s', s' = s) (states s l).
Proof.
  intros H. revert s. induction H as [|e l He _ IH]; intros s; simpl.
  - by constructor.
  - constructor; [done|]. rewrite apply_not_setter by done. apply IH.
Qed.

(** Unfolds the combinators of [Run] in the goal. *)
Ltac run_unfold :=
  cbv [bind try_catch ret settle throw perform await]; simpl.

(** ** The text extractor *)

Section Extractor.

Variable getDocument : list Byte.byte -> Thrown + PdfDocument.
Variable extractRawText : list Byte.byte -> Thrown + string.

Local Abbreviation extractText :=
  (extractTextFromFile getDocument extractRawText).

Lemma pdf_loop_trace pdf pages acc :
  Forall (λ e, is_pdf_call e = true) (trace (pdf_loop pdf pages acc)).
Proof.
  revert acc. induction pages as [|i rest IH]; intros acc; simpl.
  - constructor.
  - unfold trace, await, bind in *.
    destruct (getPage pdf i) as [t|page]; simpl; [by repeat constructor|].
    destruct (getTextContent page) as [t|items]; simpl;
      [by repeat constructor|].
    specialize (IH (acc ++ Js.join " " items ++ LF ++ LF)).
    destruct (pdf_loop pdf rest _) as [l r]. simpl in *.
    by repeat constructor.
Qed.

Lemma pdf_loop_cons pdf i rest acc :
  pdf_loop pdf (i :: rest) acc
  = match getPage pdf i with
    | inl t => ([pdf_getPage i], inl t)
    | inr page =>
        match getTextContent page with
        | inl t => ([pdf_getPage i; page_getTextContent i], inl t)
        | inr items =>
            let '(l, r) :=
              pdf_loop pdf rest (acc ++ Js.join " " items ++ LF ++ LF) in
            (pdf_getPage i :: page_getTextContent i :: l, r)
        end
    end.
Proof.
  simpl. unfold await, bind.
  destruct (getPage pdf i) as [t|page]; [done|].
  destruct (getTextContent page) as [t|items]; [done|].
  by destruct (pdf_loop pdf rest _).
Qed.

Lemma pdf_loop_all_pages pdf pages acc toks :
  mapM (page_tokens pdf) pages = Some toks →
  outcome (pdf_loop pdf pages acc) = inr (acc ++ pages_terminated toks).
Proof.
  revert acc toks. induction pages as [|i rest IH]; intros acc toks H.
  - injection H as <-. simpl. by rewrite string_app_empty_r.
  - rewrite pdf_loop_cons. simpl in H.
    destruct (page_tokens pdf i) as [items|] eqn:Hi; [|done].
    destruct (mapM (page_tokens pdf) rest) as [toks'|] eqn:Hrest; [|done].
    injection H as <-. unfold page_tokens in Hi.
    destruct (getPage pdf i) as [t|page]; [done|].
    destruct (getTextContent page) as [t|items']; [done|].
    injection Hi as ->.
    specialize (IH (acc ++ Js.join " " items ++ LF ++ LF) toks' eq_refl).
    destruct (pdf_loop pdf rest _) as [l r]. unfold outcome in *.
    simpl in *. subst r. f_equal.
    change (pages_terminated (items :: toks'))
      with (Js.join " " items ++ LF ++ LF ++ pages_terminated toks').
    by rewrite !string_app_assoc.
Qed.

Lemma pdf_loop_bad_page pdf pages acc :
  mapM (page_tokens pdf) pages = None →
  ∃ t, outcome (pdf_loop pdf pages acc) = inl t.
Proof.
  revert acc. induction pages as [|i rest IH]; intros acc H; [done|].
  rewrite pdf_loop_cons. simpl in H. unfold outcome.
  destruct (page_tokens pdf i) as [items|] eqn:Hi; unfold page_tokens in Hi.
  - destruct (getPage pdf i) as [t|page]; [done|].
    destruct (getTextContent page) as [t|items']; [done|].
    destruct (mapM (page_tokens pdf) rest) as [toks'|] eqn:Hrest; [done|].
    destruct (IH (acc ++ Js.join " " items' ++ LF ++ LF) eq_refl) as [t Ht].
    destruct (pdf_loop pdf rest _) as [l r]. by exists t.
  - destruct (getPage pdf i) as [t|page]; [by eexists|].
    destruct (getTextContent page) as [t|items']; [by eexists|done].
Qed.

Lemma extract_read_error f :
  read f = onerror →
  extractText f
  = ([readAsArrayBuffer f; console_error], inl (JsError msg_read_error)).
Proof. intros H. unfold extractTextFromFile. by rewrite H. Qed.

Lemma extract_no_result f :
  read f = onload None →
  extractText f
  = ([readAsArrayBuffer f], inl (JsError msg_no_result)).
Proof. intros H. unfold extractTextFromFile. by rewrite H. Qed.

Lemma extract_unsupported f data :
  read f = onload (Some data) → ¬ supported (extension f) →
  extractText f
  = ([readAsArrayBuffer f], inl (JsError msg_unsupported)).
Proof.
  intros H Hext. unfold extractTextFromFile, decode, is_ext.
  rewrite H. unfold supported in Hext.
  rewrite !bool_decide_eq_false_2 by tauto. done.
Qed.

Lemma extract_word f data :
  read f = onload (Some data) →
  extension f = Some "doc" ∨ extension f = Some "docx" →
  extractText f
  = match extractRawText data with
    | inr value =>
        ([readAsArrayBuffer f; mammoth_extractRawText data], inr value)
    | inl _ =>
        ([readAsArrayBuffer f; mammoth_extractRawText data; console_error],
         inl (JsError msg_parse_word))
    end.
Proof.
  intros H Hext. unfold extractTextFromFile, decode, decode_failed, is_ext.
  rewrite H.
  destruct Hext as [-> | ->]; simpl; by destruct (extractRawText data).
Qed.

Lemma extract_pdf f data :
  read f = onload (Some data) → extension f = Some "pdf" →
  extractText f
  = match getDocument data with
    | inl _ =>
        ([readAsArrayBuffer f; pdf_getDocument data; console_error],
         inl (JsError msg_parse_pdf))
    | inr pdf =>
        match pdf_loop pdf (seq 1 (numPages pdf)) "" with
        | (l, inr fullText) =>
            (readAsArrayBuffer f :: pdf_getDocument data :: l, inr fullText)
        | (l, inl _) =>
            ((readAsArrayBuffer f :: pdf_getDocument data :: l)
               ++ [console_error],
             inl (JsError msg_parse_pdf))%list
        end
    end.
Proof.
  intros H Hext. unfold extractTextFromFile, decode, decode_failed, is_ext.
  rewrite H, Hext. run_unfold.
  destruct (getDocument data) as [t|pdf]; [done|].
  destruct (pdf_loop pdf _ _) as [l [t|fullText]]; simpl;
    by rewrite ?app_nil_r, <- ?app_assoc.
Qed.

(** Extraction writes no state cell. *)
Lemma extract_no_setter f :
  Forall (λ e, is_setter e = false) (trace (extractText f)).
Proof.
  assert (∀ l, Forall (λ e, is_pdf_call e = true) l →
               Forall (λ e, is_setter e = false) l) as Hpdf.
  { intros l Hl. eapply Forall_impl; [exact Hl|]. by intros []. }
  destruct (read f) as [|[data|]] eqn:Hread.
  - rewrite extract_read_error by done. by repeat constructor.
  - destruct (decide (extension f = Some "pdf")) as [Hp|Hp].
    + rewrite (extract_pdf f data) by done.
      destruct (getDocument data) as [t|pdf]; [by repeat constructor|].
      pose proof (pdf_loop_trace pdf (seq 1 (numPages pdf)) "") as Hl.
      destruct (pdf_loop pdf _ _) as [l [t|fullText]]; simpl in *.
      * repeat constructor. apply Forall_app. split; [by apply Hpdf|].
        by repeat constructor.
      * repeat constructor. by apply Hpdf.
    + destruct (decide (extension f = Some "doc" ∨ extension f = Some "docx"))
        as [Hw|Hw].
      * rewrite (extract_word f data) by done.
        destruct (extractRawText data); by repeat constructor.
      * rewrite (extract_unsupported f data); [by repeat constructor|done|].
        unfold supported. tauto.
  - rewrite extract_no_result by done. by repeat constructor.
Qed.

End Extractor.


(** ** Numbers in messages *)

Lemma digits_value_of_uint d acc :
  digits_value (NilEmpty.string_of_uint d) acc = Some (Nat.of_uint_acc d acc).
Proof.
  revert acc.
  induction d as [|d IH|d IH|d IH|d IH|d IH|d IH|d IH|d IH|d IH|d IH];
    intros acc; [done|..];
    cbn [NilEmpty.string_of_uint digits_value Nat.of_uint_acc];
    (change (digit_value _) with (Some 0%nat)
     || change (digit_value _) with (Some 1%nat)
     || change (digit_value _) with (Some 2%nat)
     || change (digit_value _) with (Some 3%nat)
     || change (digit_value _) with (Some 4%nat)
     || change (digit_value _) with (Some 5%nat)
     || change (digit_value _) with (Some 6%nat)
     || change (digit_value _) with (Some 7%nat)
     || change (digit_value _) with (Some 8%nat)
     || change (digit_value _) with (Some 9%nat));
    cbv beta iota; rewrite IH, Nat.tail_mul_spec; do 2 f_equal; lia.
Qed.

(** The digits of a number in a message show that number. *)
Lemma number_shown_of_nat n : number_shown (Js.of_nat n) = Some n.
Proof.
  unfold number_shown, Js.of_nat.
  pose proof (digits_value_of_uint (Nat.to_uint n) 0) as H.
  pose proof (DecimalNat.Unsigned.of_to n) as Hn. unfold Nat.of_uint in Hn.
  rewrite Hn in H.
  destruct (NilEmpty.string_of_uint (Nat.to_uint n)) as [|c r] eqn:Hs; [|done].
  destruct n as [|n]; [done|].
  destruct (Nat.to_uint (S n)); try discriminate Hs. discriminate Hn.
Qed.

(** ** The content validator *)

Lemma validate_trace text : trace (validate text) = [].
Proof. unfold validate. by destruct (_ <? _)%nat. Qed.

Lemma validate_passes text :
  (100 ≤ String.length (Js.trim text))%nat → validate text = ret tt.
Proof.
  intros H. unfold validate.
  by destruct (Nat.ltb_spec (String.length (Js.trim text)) 100); [lia|].
Qed.

Lemma validate_fails text :
  (String.length (Js.trim text) < 100)%nat →
  validate text
  = throw (JsError (msg_too_short (String.length (Js.trim text)) (Js.trim text))).
Proof.
  intros H. unfold validate.
  destruct (Nat.ltb_spec (String.length (Js.trim text)) 100); [|lia].
  rewrite substring_from_0, take_all; [done|lia].
Qed.

(** ** The pipeline *)

Lemma states_session s l :
  Forall (λ e, writes_session e = false) l →
  Forall (λ s', session s' = session s) (states s l).
Proof.
  intros H. revert s. induction H as [|e l He _ IH]; intros s; simpl.
  - by constructor.
  - constructor; [done|].
    assert (session (apply_effect s e) = session s) as Hs by by destruct e.
    rewrite <- Hs. apply IH.
Qed.

Lemma run_effects_session s l :
  Forall (λ e, writes_session e = false) l →
  session (run_effects s l) = session s.
Proof.
  intros H. revert s. induction H as [|e l He _ IH]; intros s; [done|].
  unfold run_effects in *. simpl. rewrite IH. by destruct e.
Qed.

Lemma no_setter_no_session_write l :
  Forall (λ e, is_setter e = false) l →
  Forall (λ e, writes_session e = false) l.
Proof. intros H. eapply Forall_impl; [exact H|]. by intros []. Qed.

Section Controller.

Variable getDocument : list Byte.byte -> Thrown + PdfDocument.
Variable extractRawText : list Byte.byte -> Thrown + string.
Variable generateQuizFromText : string -> Z -> Thrown + list QuizQuestion.

Local Abbreviation extractText :=
  (extractTextFromFile getDocument extractRawText).
Local Abbreviation generateQuiz :=
  (generate getDocument extractRawText generateQuizFromText).
Local Abbreviation handleGenerate :=
  (handleQuizGenerate getDocument extractRawText generateQuizFromText).
Local Abbreviation fire :=
  (step getDocument extractRawText generateQuizFromText).
Local Abbreviation fire_all :=
  (steps getDocument extractRawText generateQuizFromText).

(** The [try] block, step by step. *)
Lemma generate_cases file numQuestions duration :
  generateQuiz file numQuestions duration
  = match extractText file with
    | (l, inl t) => (l, inl t)
    | (l, inr fileText) =>
        match outcome (validate fileText) with
        | inl t => (l, inl t)
        | inr _ =>
            match generateQuizFromText fileText numQuestions with
            | inl t =>
                ((l ++ [call_generateQuizFromText fileText numQuestions])%list,
                 inl t)
            | inr questions =>
                ((l ++ [call_generateQuizFromText fileText numQuestions;
                        setQuizQuestions questions;
                        setUserAnswers (Js.filled (length questions) "");
                        setTimerDuration duration;
                        setCurrentQuestionIndex 0;
                        setAppState quiz])%list,
                 inr tt)
            end
        end
    end.
Proof.
  unfold generate. destruct (extractText file) as [l [t|fileText]]; [done|].
  unfold bind at 1. pose proof (validate_trace fileText) as Htr.
  destruct (validate fileText) as [lv [t|[]]]; unfold trace, outcome in *;
    simpl in *; subst lv.
  - by rewrite app_nil_r.
  - run_unfold. by destruct (generateQuizFromText fileText numQuestions).
Qed.

(** The handler around the [try] block. *)
Lemma handleQuizGenerate_unfold file numQuestions duration :
  handleGenerate file numQuestions duration
  = match generateQuiz file numQuestions duration with
    | (l, inl err) =>
        (setAppState generating :: setError None :: l
         ++ [console_error; setError (Some (errorMessage err));
             setAppState setup])%list
    | (l, inr _) => setAppState generating :: setError None :: l
    end.
Proof.
  unfold handleQuizGenerate, generate_failed.
  by destruct (generateQuiz file numQuestions duration) as [l [t|[]]].
Qed.

Lemma generate_fails file numQuestions duration t :
  pipeline_fails getDocument extractRawText generateQuizFromText
                 file numQuestions t →
  ∃ l, generateQuiz file numQuestions duration = (l, inl t)
       ∧ Forall (λ e, is_setter e = false) l.
Proof.
  intros H. rewrite generate_cases. unfold pipeline_fails in H.
  pose proof (extract_no_setter getDocument extractRawText file) as Hl.
  destruct (extractText file) as [l r]. unfold trace, outcome in *.
  simpl in *.
  destruct H as [-> | (fileText & -> & [Hv | [Hv Hg]])].
  - by exists l.
  - rewrite Hv. by exists l.
  - rewrite Hv, Hg. eexists. split; [done|].
    apply Forall_app. split; [done|]. by repeat constructor.
Qed.

Lemma failed_run_final_state s file numQuestions duration t :
  pipeline_fails getDocument extractRawText generateQuizFromText
                 file numQuestions t →
  run_effects s (handleGenerate file numQuestions duration)
  = mkApp setup (quizQuestions s) (userAnswers s) (currentQuestionIndex s)
          (timerDuration s) (Some (errorMessage t)).
Proof.
  intros Hfail.
  destruct (generate_fails file numQuestions duration t Hfail) as (l & Hg & Hl).
  rewrite handleQuizGenerate_unfold, Hg.
  apply no_setter_no_session_write in Hl.
  change (setAppState generating :: setError None :: l
          ++ [console_error; setError (Some (errorMessage t));
              setAppState setup])%list
    with ((setAppState generating :: setError None :: l)
          ++ [console_error; setError (Some (errorMessage t));
              setAppState setup])%list.
  rewrite run_effects_app.
  assert (session (run_effects s (setAppState generating :: setError None :: l))
          = session s) as Hs.
  { apply run_effects_session. by repeat constructor. }
  destruct (run_effects s _) as [a qs ua i d e]. destruct s.
  unfold session in Hs. simpl in *. by simplify_eq.
Qed.


Lemma successful_run_trace file numQuestions duration fileText questions :
  outcome (extractText file) = inr fileText →
  (100 ≤ String.length (Js.trim fileText))%nat →
  generateQuizFromText fileText numQuestions = inr questions →
  handleGenerate file numQuestions duration
  = ((setAppState generating :: setError None :: trace (extractText file)
      ++ [call_generateQuizFromText fileText numQuestions])
     ++ [setQuizQuestions questions;
         setUserAnswers (Js.filled (length questions) "");
         setTimerDuration duration;
         setCurrentQuestionIndex 0;
         setAppState quiz])%list.
Proof.
  intros Hx Hlen Hgen.
  rewrite handleQuizGenerate_unfold, generate_cases.
  destruct (extractText file) as [l r]. unfold outcome, trace in *.
  simpl in Hx |- *. subst r.
  rewrite (validate_passes _ Hlen), Hgen. simpl.
  by rewrite <- app_assoc.
Qed.

Lemma successful_run_final_state
    s file numQuestions duration fileText questions :
  outcome (extractText file) = inr fileText →
  (100 ≤ String.length (Js.trim fileText))%nat →
  generateQuizFromText fileText numQuestions = inr questions →
  run_effects s (handleGenerate file numQuestions duration)
  = mkApp quiz questions (Js.filled (length questions) "") 0 duration None.
Proof.
  intros Hx Hlen Hgen.
  rewrite (successful_run_trace _ _ _ _ _ Hx Hlen Hgen), run_effects_app.
  change (setAppState generating :: setError None
            :: trace (extractText file)
            ++ [call_generateQuizFromText fileText numQuestions])%list
    with ([setAppState generating; setError None]
            ++ (trace (extractText file)
                ++ [call_generateQuizFromText fileText numQuestions]))%list.
  rewrite run_effects_app, (run_no_setter _ (_ ++ _)); [done|].
  apply Forall_app. split; [|by repeat constructor].
  apply extract_no_setter.
Qed.

(** Every run of the pipeline ends in one of the two ways. *)
Lemma pipeline_cases file numQuestions :
  (∃ t, pipeline_fails getDocument extractRawText generateQuizFromText
                       file numQuestions t)
  ∨ (∃ fileText questions,
       outcome (extractText file) = inr fileText
       ∧ (100 ≤ String.length (Js.trim fileText))%nat
       ∧ generateQuizFromText fileText numQuestions = inr questions).
Proof.
  unfold pipeline_fails.
  destruct (outcome (extractText file)) as [t|fileText] eqn:Hx;
    [left; exists t; by left|].
  destruct (Nat.lt_ge_cases (String.length (Js.trim fileText)) 100)
    as [Hshort|Hlong].
  - left. eexists. right. exists fileText. split; [done|]. left.
    by rewrite (validate_fails _ Hshort).
  - destruct (generateQuizFromText fileText numQuestions) as [t|questions]
      eqn:Hgen.
    + left. exists t. right. exists fileText. split; [done|]. right.
      by rewrite (validate_passes _ Hlong).
    + right. by exists fileText, questions.
Qed.

(** C6.  When the extraction yields [fileText], its trimmed length is at
    least 100 and the producer answers the request [(fileText,
    numQuestions)] with [questions], the handler calls the producer with
    exactly that request, writes no cell of the session before the answer
    is there, and then installs the session: the questions, as many empty
    answers, index 0, the submitted duration, phase [quiz] and no error. *)
Theorem successful_pipeline_installs_session
    s file numQuestions duration fileText questions :
  outcome (extractText file) = inr fileText →
  (100 ≤ String.length (Js.trim fileText))%nat →
  generateQuizFromText fileText numQuestions = inr questions →
  let before :=
    (setAppState generating :: setError None :: trace (extractText file)
     ++ [call_generateQuizFromText fileText numQuestions])%list in
  handleGenerate file numQuestions duration
  = (before ++ [setQuizQuestions questions;
                setUserAnswers (Js.filled (length questions) "");
                setTimerDuration duration;
                setCurrentQuestionIndex 0;
                setAppState quiz])%list
  ∧ Forall (λ s', session s' = session s) (states s before)
  ∧ run_effects s (handleGenerate file numQuestions duration)
    = mkApp quiz questions
            (Js.mkArray (replicate (length questions) (Some "")) ∅)
            0 duration None.
Proof.
  intros Hx Hlen Hgen before.
  split; [by apply successful_run_trace|].
  split; [|by apply (successful_run_final_state _ _ _ _ fileText)].
  apply states_session. subst before. repeat constructor.
  apply Forall_app. split; [|by repeat constructor].
  apply no_setter_no_session_write, extract_no_setter.
Qed.

(** C3 (amended).  The extension is looked at after the read.  A failed
    read is reported as such whatever the extension.  After a successful
    read, a file whose extension is none of [pdf], [doc], [docx] fails
    with the unsupported-type message and no decoder is called; a [pdf]
    file goes to the PDF decoder and never to the Word decoder; a [doc] or
    [docx] file goes to the Word decoder and never to the PDF decoder. *)
Theorem extraction_routes_by_extension_after_read f :
  (read f = onerror →
   extractText f
   = ([readAsArrayBuffer f; console_error], inl (JsError msg_read_error)))
  ∧ (read f = onload None →
     extractText f = ([readAsArrayBuffer f], inl (JsError msg_no_result)))
  ∧ ∀ data, read f = onload (Some data) →
      (¬ supported (extension f) →
       extractText f = ([readAsArrayBuffer f], inl (JsError msg_unsupported)))
      ∧ (extension f = Some "pdf" →
         (∃ l, trace (extractText f)
               = readAsArrayBuffer f :: pdf_getDocument data :: l)
         ∧ Forall (λ e, is_word_call e = false) (trace (extractText f)))
      ∧ (extension f = Some "doc" ∨ extension f = Some "docx" →
         (∃ l, trace (extractText f)
               = readAsArrayBuffer f :: mammoth_extractRawText data :: l)
         ∧ Forall (λ e, is_pdf_call e = false) (trace (extractText f))).
Proof.
  split; [apply extract_read_error|]. split; [apply extract_no_result|].
  intros data Hread. split; [by apply (extract_unsupported _ _ f data)|]. split.
  - intros Hext. rewrite (extract_pdf _ _ f data Hread Hext).
    destruct (getDocument data) as [t|pdf].
    { split; [by eexists|by repeat constructor]. }
    pose proof (pdf_loop_trace pdf (seq 1 (numPages pdf)) "") as Hl.
    assert (Forall (λ e, is_word_call e = false)
              (trace (pdf_loop pdf (seq 1 (numPages pdf)) ""))) as Hw.
    { eapply Forall_impl; [exact Hl|]. by intros []. }
    destruct (pdf_loop pdf _ _) as [l [t|fullText]]; unfold trace in *;
      simpl in *.
    + split; [by eexists|]. repeat constructor.
      apply Forall_app. split; [done|by repeat constructor].
    + split; [by eexists|]. by repeat constructor.
  - intros Hext. rewrite (extract_word _ _ f data Hread Hext).
    destruct (extractRawText data);
      (split; [by eexists|by repeat constructor]).
Qed.

(** C5 (amended).  For a PDF that is read and opened: when every page from
    1 to the last decodes, the text is, in page order, each page's tokens
    joined by single spaces and followed by a blank line, the last page
    too; when a page fails to decode, the extraction fails with the
    PDF parse message and yields no text. *)
Theorem pdf_text_is_pages_each_followed_by_blank_line f data pdf :
  read f = onload (Some data) →
  extension f = Some "pdf" →
  getDocument data = inr pdf →
  (∀ toks, mapM (page_tokens pdf) (seq 1 (numPages pdf)) = Some toks →
           outcome (extractText f) = inr (pages_terminated toks))
  ∧ (∀ k, (1 ≤ k ≤ numPages pdf)%nat → page_tokens pdf k = None →
          outcome (extractText f) = inl (JsError msg_parse_pdf)).
Proof.
  intros Hread Hext Hdoc. rewrite (extract_pdf _ _ f data Hread Hext), Hdoc.
  split.
  - intros toks Htoks.
    pose proof (pdf_loop_all_pages pdf _ "" toks Htoks) as Hout.
    destruct (pdf_loop pdf _ _) as [l r]. unfold outcome in *. simpl in *.
    by subst r.
  - intros k Hk Hbad.
    destruct (pdf_loop_bad_page pdf (seq 1 (numPages pdf)) "") as [t Ht].
    { apply mapM_None, Exists_exists. exists k. split; [|done].
      apply elem_of_seq. lia. }
    destruct (pdf_loop pdf _ _) as [l r]. unfold outcome in *. simpl in *.
    by subst r.
Qed.

(** C10.  The extension is the lower-cased text after the last dot of the
    file name, and the whole lower-cased name when the name has no dot; so
    a file named [pdf] has the extension [pdf], goes to the PDF decoder
    and does not fail with the unsupported-type message. *)
Theorem extension_is_text_after_last_dot :
  (∀ f, Js.includes (name f) "." = false →
        extension f = Some (Js.toLowerCase (name f)))
  ∧ (∀ f pre suf, name f = pre ++ String "." suf →
                  Js.includes suf "." = false →
                  extension f = Some (Js.toLowerCase suf))
  ∧ (∀ data, let f := mkFile "pdf" (onload (Some data)) in
       extension f = Some "pdf"
       ∧ trace (extractText f) !! 1%nat = Some (pdf_getDocument data)
       ∧ outcome (extractText f) ≠ inl (JsError msg_unsupported)).
Proof.
  split; [|split].
  - intros f H. unfold extension, Js.pop. by rewrite split_no_separator.
  - intros f pre suf Hname H. unfold extension.
    by rewrite Hname, pop_split_last.
  - intros data f. split; [done|].
    rewrite (extract_pdf _ _ f data eq_refl eq_refl).
    destruct (getDocument data) as [t|pdf]; [done|].
    by destruct (pdf_loop pdf _ _) as [l [t|fullText]].
Qed.

(** C4.  The length check fails exactly when the trimmed text has fewer
    than 100 code units; the message of the failure then shows, in
    decimal digits, the trimmed length and, as snippet between quotes, the
    first [min 100 length] code units of the trimmed text. *)
Theorem validate_fails_iff_trimmed_below_100 text :
  let trimmed := Js.trim text in
  ((∃ t, outcome (validate text) = inl t)
   ↔ (String.length trimmed < 100)%nat)
  ∧ ((String.length trimmed < 100)%nat →
     ∃ digits,
       number_shown digits = Some (String.length trimmed)
       ∧ validate text
         = throw (JsError
             ("Document content is too short (" ++ digits
              ++ " characters) to generate a meaningful quiz. This can happen if the document is very brief or is image-based from which text cannot be extracted."
              ++ String "010" (String "010"
                   ("Extracted text snippet: "
                    ++ String "034"
                         (Js.take (100 `min` String.length trimmed) trimmed
                          ++ "..." ++ String "034" EmptyString))))))
  ∧ ((100 ≤ String.length trimmed)%nat → validate text = ret tt).
Proof.
  intros trimmed. subst trimmed.
  split; [|split; [|apply validate_passes]].
  - split.
    + intros [t Ht].
      destruct (Nat.lt_ge_cases (String.length (Js.trim text)) 100); [done|].
      by rewrite validate_passes in Ht.
    + intros H. rewrite (validate_fails _ H). by eexists.
  - intros H. exists (Js.of_nat (String.length (Js.trim text))).
    split; [apply number_shown_of_nat|].
    rewrite (validate_fails _ H), <- take_min, take_all by lia.
    reflexivity.
Qed.

(** C7.  In the quiz phase, selecting an answer stores it at the current
    index and leaves the entry at every other array index as it was; the
    length is unchanged when the current index is inside the array, and no
    other cell of the state changes.  Selecting again on the same question
    overwrites: the state after two selections is the state after the
    second alone. *)
Theorem select_answer_writes_current_entry_only s answer :
  appState s = quiz →
  ∃ s', fire s (onAnswerSelect answer) = Some s'
    ∧ Js.get (userAnswers s') (currentQuestionIndex s) = Some answer
    ∧ (∀ j, Js.is_index j = true → j ≠ currentQuestionIndex s →
            Js.get (userAnswers s') j = Js.get (userAnswers s) j)
    ∧ (0 ≤ currentQuestionIndex s < Js.alength (userAnswers s) →
       Js.alength (userAnswers s') = Js.alength (userAnswers s))
    ∧ s' = mkApp quiz (quizQuestions s) (userAnswers s')
                 (currentQuestionIndex s) (timerDuration s) (error s)
    ∧ (∀ answer2, fire s' (onAnswerSelect answer2)
                  = fire s (onAnswerSelect answer2)).
Proof.
  intros Hq. unfold step, renderContent. rewrite Hq. simpl.
  eexists. split; [done|]. simpl. split; [apply get_set_eq|].
  split; [|split; [|split]].
  - intros j Hj Hne. rewrite get_set_ne by done.
    unfold Js.get. by rewrite Hj.
  - intros Hin. by rewrite length_set_inside.
  - by rewrite Hq.
  - intros answer2. simpl. rewrite Hq. simpl.
    by rewrite set_spread_twice.
Qed.

(** C8.  In the quiz phase, with an index in the range where the
    additions of the code are exact (magnitude below 2^53), [next] moves
    the index up by one below the last question and changes nothing on
    the last question; [prev] moves it down by one above the first
    question and changes nothing on the first.  Both are handled events in
    every case. *)
Theorem next_and_prev_stop_at_the_ends s :
  appState s = quiz →
  - 2 ^ 53 < currentQuestionIndex s < 2 ^ 53 →
  let i := currentQuestionIndex s in
  let n := Z.of_nat (length (quizQuestions s)) in
  (i < n - 1 →
   fire s onNext = Some (mkApp quiz (quizQuestions s) (userAnswers s) (i + 1)
                               (timerDuration s) (error s)))
  ∧ (i = n - 1 → fire s onNext = Some s)
  ∧ (i > 0 →
     fire s onPrev = Some (mkApp quiz (quizQuestions s) (userAnswers s) (i - 1)
                                 (timerDuration s) (error s)))
  ∧ (i = 0 → fire s onPrev = Some s).
Proof.
  intros Hq _ i n. subst i n.
  unfold step, renderContent, handleNextQuestion, handlePrevQuestion.
  rewrite Hq. simpl. repeat split; intros H.
  - destruct (Z.ltb_spec (currentQuestionIndex s)
                (Z.of_nat (length (quizQuestions s)) - 1)); [|lia].
    simpl. by rewrite Hq.
  - destruct (Z.ltb_spec (currentQuestionIndex s)
                (Z.of_nat (length (quizQuestions s)) - 1)); [lia|done].
  - destruct (Z.gtb_spec (currentQuestionIndex s) 0); [|lia].
    simpl. by rewrite Hq.
  - destruct (Z.gtb_spec (currentQuestionIndex s) 0); [lia|done].
Qed.

(** C9.  In the results phase, [retry] leads to the setup phase with no
    questions, no answers, index 0 and no error message. *)
Theorem retry_resets_the_session s :
  appState s = results →
  fire s onRetry = Some (mkApp setup [] Js.empty 0 (timerDuration s) None).
Proof. intros Hr. unfold step, renderContent. by rewrite Hr. Qed.

(** ** The invariant of the session *)

Lemma freshly_installed_invariant s :
  freshly_installed s → quizQuestions s ≠ [] → session_invariant s.
Proof.
  intros (questions & duration & ->) Hne _. simpl in *.
  unfold index_in_range, answers_aligned, Js.alength. simpl.
  rewrite length_replicate. split; [|done].
  destruct questions; [done|]. simpl. lia.
Qed.

Lemma step_preserves_invariant s e s' :
  session_invariant s →
  guarded getDocument extractRawText generateQuizFromText s e →
  fire s e = Some s' →
  session_invariant s'.
Proof.
  unfold session_invariant, in_quiz_or_review, index_in_range, answers_aligned.
  intros Hinv Hg Hstep. unfold step, renderContent in Hstep.
  destruct (appState s) eqn:Hphase; destruct e; simpl in Hstep;
    try discriminate; injection Hstep as <-.
  - (* setup, onGenerate *)
    destruct (pipeline_cases file numQuestions)
      as [[t Hfail] | (fileText & questions & Hx & Hlen & Hgen)].
    + rewrite (failed_run_final_state _ _ _ _ _ Hfail). simpl.
      by intros [|].
    + rewrite (successful_run_final_state _ _ _ _ _ _ Hx Hlen Hgen). simpl.
      intros _. unfold Js.alength. simpl. rewrite length_replicate.
      split; [|done]. simpl in Hg. specialize (Hg fileText Hx).
      destruct questions; [congruence|]. simpl. lia.
  - (* quiz, onAnswerSelect *)
    simpl. rewrite Hphase. intros _.
    destruct Hinv as [Hi Ha]; [by left|]. split; [done|].
    rewrite length_set_inside; [done|]. unfold Js.alength in *. simpl. lia.
  - (* quiz, onNext *)
    unfold handleNextQuestion.
    destruct (Z.ltb_spec (currentQuestionIndex s)
                (Z.of_nat (length (quizQuestions s)) - 1)); simpl;
      rewrite ?Hphase; intros _; (destruct Hinv as [Hi Ha]; [by left|]);
      (split; [lia|done]).
  - (* quiz, onPrev *)
    unfold handlePrevQuestion.
    destruct (Z.gtb_spec (currentQuestionIndex s) 0); simpl;
      rewrite ?Hphase; intros _; (destruct Hinv as [Hi Ha]; [by left|]);
      (split; [lia|done]).
  - (* quiz, onFinish *)
    simpl. intros _. apply Hinv. by left.
  - (* review, onFinalSubmit *)
    simpl. by intros [|].
  - (* review, onJumpToQuestion *)
    simpl. intros _. simpl in Hg. split; [done|]. apply Hinv. by right.
  - (* results, onRetry *)
    simpl. by intros [|].
Qed.

Lemma steps_preserve_invariant es : ∀ s s',
  session_invariant s →
  guarded_steps getDocument extractRawText generateQuizFromText s es →
  fire_all s es = Some s' →
  session_invariant s'.
Proof.
  induction es as [|e es IH]; intros s s' Hinv Hg Hrun; simpl in *.
  - by injection Hrun as <-.
  - destruct Hg as [Hge Hrest].
    destruct (fire s e) as [s1|] eqn:Hstep; [|done].
    apply (IH s1); [|done..].
    by apply (step_preserves_invariant s e).
Qed.

(** C2 (amended).  The handler of [jumpToQuestion] checks nothing: from
    the review phase it sets the index to any [index] it is given.  The
    invariant holds on condition: in every state reached from a freshly
    installed session with at least one question by events of which every
    jump targets a question that exists and every new submission is
    answered with at least one question, the index is inside the
    questions and there are as many answers as questions whenever the
    phase is quiz or review. *)
Theorem session_invariant_under_guarded_events :
  (∀ s index, appState s = review →
     fire s (onJumpToQuestion index)
     = Some (mkApp quiz (quizQuestions s) (userAnswers s) index
                   (timerDuration s) (error s)))
  ∧ (∀ s0 es s,
       freshly_installed s0 → quizQuestions s0 ≠ [] →
       guarded_steps getDocument extractRawText generateQuizFromText s0 es →
       fire_all s0 es = Some s →
       in_quiz_or_review s →
       0 ≤ currentQuestionIndex s < Z.of_nat (length (quizQuestions s))
       ∧ Js.alength (userAnswers s) = Z.of_nat (length (quizQuestions s))).
Proof.
  split.
  - intros s index Hr. unfold step, renderContent. by rewrite Hr.
  - intros s0 es s Hfresh Hne Hg Hrun.
    apply (steps_preserve_invariant es s0 s); [|done..].
    by apply freshly_installed_invariant.
Qed.

End Controller.

(** ** The claims on the concrete environment *)


(** Scenario A of the specification, with the two questions of the fake
    producer. *)
Lemma successful_pipeline_installs_session_witness :
  Demo.handle Demo.good_pdf 2 30
  = [setAppState generating; setError None;
     readAsArrayBuffer Demo.good_pdf; pdf_getDocument [Byte.x25];
     pdf_getPage 1; page_getTextContent 1;
     pdf_getPage 2; page_getTextContent 2;
     call_generateQuizFromText Demo.good_text 2;
     setQuizQuestions [Demo.q1; Demo.q2];
     setUserAnswers (Js.mkArray [Some ""; Some ""] ∅);
     setTimerDuration 30; setCurrentQuestionIndex 0; setAppState quiz]
  ∧ run_effects initial (Demo.handle Demo.good_pdf 2 30)
    = mkApp quiz [Demo.q1; Demo.q2] (Js.mkArray [Some ""; Some ""] ∅) 0 30 None.
Proof.
  destruct (successful_pipeline_installs_session
              Demo.getDocument Demo.extractRawText Demo.generateQuizFromText
              initial Demo.good_pdf 2 30 Demo.good_text [Demo.q1; Demo.q2])
    as (Htrace & _ & Hfinal).
  - reflexivity.
  - vm_compute. lia.
  - reflexivity.
  - split; [exact Htrace|exact Hfinal].
Defined.

Lemma extraction_routes_by_extension_after_read_witness :
  Demo.extract Demo.lost_text_file
  = ([readAsArrayBuffer Demo.lost_text_file; console_error],
     inl (JsError msg_read_error))
  ∧ Demo.extract Demo.text_file
    = ([readAsArrayBuffer Demo.text_file], inl (JsError msg_unsupported))
  ∧ (∃ l, trace (Demo.extract Demo.good_pdf)
          = readAsArrayBuffer Demo.good_pdf :: pdf_getDocument [Byte.x25] :: l)
  ∧ (∃ l, trace (Demo.extract Demo.word_doc)
          = readAsArrayBuffer Demo.word_doc
              :: mammoth_extractRawText [Byte.x50] :: l).
Proof.
  pose proof (extraction_routes_by_extension_after_read
                Demo.getDocument Demo.extractRawText) as R.
  split; [|split; [|split]].
  - exact (proj1 (R Demo.lost_text_file) eq_refl).
  - destruct (proj2 (proj2 (R Demo.text_file)) [Byte.x41] eq_refl)
      as (Hu & _ & _).
    apply Hu. intros [H|[H|H]]; discriminate H.
  - destruct (proj2 (proj2 (R Demo.good_pdf)) [Byte.x25] eq_refl)
      as (_ & Hp & _).
    exact (proj1 (Hp eq_refl)).
  - destruct (proj2 (proj2 (R Demo.word_doc)) [Byte.x50] eq_refl)
      as (_ & _ & Hw).
    exact (proj1 (Hw (or_intror eq_refl))).
Defined.

Lemma validate_fails_iff_trimmed_below_100_witness :
  (∃ digits,
     number_shown digits = Some 9%nat
     ∧ validate "  short doc  "
       = throw (JsError
           ("Document content is too short (" ++ digits
            ++ " characters) to generate a meaningful quiz. This can happen if the document is very brief or is image-based from which text cannot be extracted."
            ++ String "010" (String "010"
                 ("Extracted text snippet: "
                  ++ String "034" ("short doc" ++ "..."
                                   ++ String "034" EmptyString))))))
  ∧ validate Demo.good_text = ret tt.
Proof.
  split.
  - destruct (validate_fails_iff_trimmed_below_100 "  short doc  ")
      as (_ & Hshort & _).
    apply Hshort. vm_compute. lia.
  - destruct (validate_fails_iff_trimmed_below_100 Demo.good_text)
      as (_ & _ & Hlong).
    apply Hlong. vm_compute. lia.
Defined.

(** The message of scenario B, letter by letter. *)
Example too_short_message_runs :
  validate "  short doc  "
  = throw (JsError
      ("Document content is too short (9 characters) to generate a meaningful quiz. This can happen if the document is very brief or is image-based from which text cannot be extracted."
       ++ String "010" (String "010"
            ("Extracted text snippet: "
             ++ String "034" ("short doc..." ++ String "034" EmptyString))))).
Proof. reflexivity. Qed.

Lemma pdf_text_is_pages_each_followed_by_blank_line_witness :
  outcome (Demo.extract Demo.good_pdf)
  = inr (pages_terminated [Demo.page1; Demo.page2])
  ∧ outcome (Demo.extract Demo.bad_pdf) = inl (JsError msg_parse_pdf).
Proof.
  split.
  - destruct (pdf_text_is_pages_each_followed_by_blank_line
                Demo.getDocument Demo.extractRawText
                Demo.good_pdf [Byte.x25] (Demo.document Byte.x25)
                eq_refl eq_refl eq_refl) as [Hall _].
    apply Hall. reflexivity.
  - destruct (pdf_text_is_pages_each_followed_by_blank_line
                Demo.getDocument Demo.extractRawText
                Demo.bad_pdf [Byte.x00] (Demo.document Byte.x00)
                eq_refl eq_refl eq_refl) as [_ Hbad].
    apply (Hbad 2%nat); [simpl; lia|reflexivity].
Defined.

Lemma select_answer_writes_current_entry_only_witness :
  appState Demo.installed = quiz
  ∧ ∃ s', Demo.fire Demo.installed (onAnswerSelect "The fox") = Some s'
      ∧ Js.get (userAnswers s') 0 = Some "The fox"
      ∧ Js.get (userAnswers s') 1 = Some "".
Proof.
  split; [reflexivity|].
  destruct (select_answer_writes_current_entry_only
              Demo.getDocument Demo.extractRawText Demo.generateQuizFromText
              Demo.installed "The fox" eq_refl)
    as (s' & Hfire & Hcur & Hother & _).
  exists s'. split; [exact Hfire|]. split; [exact Hcur|].
  rewrite (Hother 1); [reflexivity|reflexivity|discriminate].
Defined.

Lemma next_and_prev_stop_at_the_ends_witness :
  Demo.fire Demo.installed onNext
  = Some (mkApp quiz [Demo.q1; Demo.q2] (Js.filled 2 "") 1 30 None)
  ∧ Demo.fire Demo.installed onPrev = Some Demo.installed
  ∧ Demo.fire (mkApp quiz [Demo.q1; Demo.q2] (Js.filled 2 "") 1 30 None) onNext
    = Some (mkApp quiz [Demo.q1; Demo.q2] (Js.filled 2 "") 1 30 None)
  ∧ Demo.fire (mkApp quiz [Demo.q1; Demo.q2] (Js.filled 2 "") 1 30 None) onPrev
    = Some (mkApp quiz [Demo.q1; Demo.q2] (Js.filled 2 "") 0 30 None).
Proof.
  pose proof (next_and_prev_stop_at_the_ends
                Demo.getDocument Demo.extractRawText Demo.generateQuizFromText)
    as N.
  destruct (N Demo.installed eq_refl) as (Hnext & _ & _ & Hfirst);
    [vm_compute; split; reflexivity|].
  destruct (N (mkApp quiz [Demo.q1; Demo.q2] (Js.filled 2 "") 1 30 None)
              eq_refl) as (_ & Hlast & Hprev & _);
    [vm_compute; split; reflexivity|].
  split; [|split; [|split]].
  - apply Hnext. vm_compute. reflexivity.
  - apply Hfirst. reflexivity.
  - apply Hlast. reflexivity.
  - apply Hprev. vm_compute. reflexivity.
Defined.

(** Scenario C of the specification. *)
Lemma retry_resets_the_session_witness :
  Demo.fire (mkApp results [Demo.q1; Demo.q2]
                   (Js.mkArray [Some "The fox"; Some ""] ∅) 1 30 None)
            onRetry
  = Some (mkApp setup [] Js.empty 0 30 None).
Proof.
  apply (retry_resets_the_session
           Demo.getDocument Demo.extractRawText Demo.generateQuizFromText
           (mkApp results [Demo.q1; Demo.q2]
                  (Js.mkArray [Some "The fox"; Some ""] ∅) 1 30 None)).
  reflexivity.
Defined.

Lemma extension_is_text_after_last_dot_witness :
  extension (mkFile "README" onerror) = Some "readme"
  ∧ extension (mkFile "archive.tar.PDF" onerror) = Some "pdf".
Proof.
  destruct (extension_is_text_after_last_dot
              Demo.getDocument Demo.extractRawText) as (Hnone & Hlast & _).
  split.
  - apply (Hnone (mkFile "README" onerror)). reflexivity.
  - apply (Hlast (mkFile "archive.tar.PDF" onerror) "archive.tar" "PDF");
      reflexivity.
Defined.

Lemma session_invariant_under_guarded_events_witness :
  ∃ s, Demo.fire_all Demo.installed Demo.tour = Some s
     ∧ 0 ≤ currentQuestionIndex s < Z.of_nat (length (quizQuestions s))
     ∧ Js.alength (userAnswers s) = Z.of_nat (length (quizQuestions s)).
Proof.
  exists (mkApp quiz [Demo.q1; Demo.q2] (Js.filled 2 "") 1 60 None).
  split; [reflexivity|].
  destruct (session_invariant_under_guarded_events
              Demo.getDocument Demo.extractRawText Demo.generateQuizFromText)
    as [_ Hinv].
  apply (Hinv Demo.installed Demo.tour).
  - exists [Demo.q1; Demo.q2], 30. reflexivity.
  - discriminate.
  - repeat (split; [try exact I; try (simpl; lia)|]); try exact I.
    all: try (intros fileText H; discriminate).
  - reflexivity.
  - left. reflexivity.
Defined.

(** ** Where the code departs from the specification *)

(** The text of the code is the text of the specification with one more
    blank line at its end. *)
Lemma pages_terminated_separated toks :
  toks ≠ [] → pages_terminated toks = pages_separated toks ++ LF ++ LF.
Proof.
  induction toks as [|p rest IH]; [done|]. intros _.
  destruct rest as [|q rest].
  - change (Js.join " " p ++ LF ++ LF ++ EmptyString
            = Js.join " " p ++ LF ++ LF).
    by rewrite string_app_empty_r.
  - change (Js.join " " p ++ LF ++ LF ++ pages_terminated (q :: rest)
            = (Js.join " " p ++ (LF ++ LF) ++ pages_separated (q :: rest))
              ++ LF ++ LF).
    rewrite IH by done. by rewrite !string_app_assoc.
Qed.

(** C2, as stated, fails: after a successful run on [good_pdf] (two
    questions), finishing and jumping to question 7 leaves the quiz phase
    with the index 7. *)
Lemma unguarded_jump_leaves_the_questions :
  freshly_installed Demo.installed
  ∧ quizQuestions Demo.installed ≠ []
  ∧ ∃ s, Demo.fire_all Demo.installed [onFinish; onJumpToQuestion 7] = Some s
       ∧ in_quiz_or_review s
       ∧ currentQuestionIndex s = 7
       ∧ length (quizQuestions s) = 2%nat
       ∧ ¬ index_in_range s.
Proof.
  split; [by exists [Demo.q1; Demo.q2], 30|]. split; [done|].
  eexists. split; [reflexivity|]. split; [by left|].
  split; [reflexivity|]. split; [reflexivity|].
  unfold index_in_range. simpl. lia.
Qed.

(** A producer that answers with no question installs a session whose
    index 0 is outside the questions. *)
Lemma empty_answer_installs_index_out_of_range :
  let s := run_effects initial
             (handleQuizGenerate Demo.getDocument Demo.extractRawText
                                 Demo.no_questions Demo.good_pdf 2 30) in
  freshly_installed s ∧ in_quiz_or_review s ∧ ¬ index_in_range s.
Proof.
  split; [by exists [], 30|]. split; [by left|].
  unfold index_in_range. simpl. lia.
Qed.

(** C3, as stated, fails: [notes.txt] has no supported extension, yet when
    its read fails the failure is the read failure, not the unsupported
    type; and when its read succeeds, the file has been read before the
    unsupported type is reported. *)
Lemma unsupported_extension_is_read_first :
  ¬ supported (extension Demo.lost_text_file)
  ∧ outcome (Demo.extract Demo.lost_text_file) = inl (JsError msg_read_error)
  ∧ outcome (Demo.extract Demo.lost_text_file) ≠ inl (JsError msg_unsupported)
  ∧ ¬ supported (extension Demo.text_file)
  ∧ Demo.extract Demo.text_file
    = ([readAsArrayBuffer Demo.text_file], inl (JsError msg_unsupported))
  ∧ ¬ Forall (λ e, is_read e = false) (trace (Demo.extract Demo.text_file)).
Proof.
  split; [intros [H|[H|H]]; discriminate H|].
  split; [reflexivity|]. split; [discriminate|].
  split; [intros [H|[H|H]]; discriminate H|].
  split; [reflexivity|].
  intros H. apply Forall_cons in H as [H _]. discriminate H.
Qed.

(** C5, as stated, fails: both pages of [good_pdf] decode, and the text
    ends with a blank line after the last page. *)
Lemma last_page_is_followed_by_blank_line :
  mapM (page_tokens (Demo.document Byte.x25)) (seq 1 2)
  = Some [Demo.page1; Demo.page2]
  ∧ outcome (Demo.extract Demo.good_pdf)
    = inr (pages_separated [Demo.page1; Demo.page2] ++ LF ++ LF)
  ∧ outcome (Demo.extract Demo.good_pdf)
    ≠ inr (pages_separated [Demo.page1; Demo.page2]).
Proof.
  split; [reflexivity|]. split; [reflexivity|].
  vm_compute. discriminate.
Qed.

(** * Further properties of the component *)

(** ** The extension of a file name *)

Lemma lower_char_dot c :
  Ascii.eqb (Js.lower_char c) "." = Ascii.eqb c ".".
Proof. by destruct c as [[] [] [] [] [] [] [] []]. Qed.


Lemma includes_toLowerCase s :
  Js.includes (Js.toLowerCase s) "." = Js.includes s ".".
Proof.
  induction s as [|c s IH]; [done|]. simpl. by rewrite lower_char_dot, IH.
Qed.


Lemma pop_split_has_no_separator sep s :
  ∃ x, Js.pop (Js.split sep s) = Some x ∧ Js.includes x sep = false.
Proof.
  unfold Js.pop. induction s as [|c s (x & Hx & Hsep)]; simpl.
  - by exists EmptyString.
  - destruct (Ascii.eqb c sep) eqn:Hc.
    + exists x. split; [|done].
      pose proof (split_nonempty sep s).
      by destruct (Js.split sep s).
    + destruct (Js.split sep s) as [|h [|h' t]]; [done| |].
      * injection Hx as <-. exists (String c h). simpl. by rewrite Hc.
      * by exists x.
Qed.

(** ** Trimming *)

Lemma trimStart_length s :
  (String.length (Js.trimStart s) ≤ String.length s)%nat.
Proof.
  induction s as [|c s IH]; simpl; [done|].
  destruct (Js.is_white c); simpl; lia.
Qed.

Lemma trimEnd_length s :
  (String.length (Js.trimEnd s) ≤ String.length s)%nat.
Proof.
  induction s as [|c s IH]; simpl; [done|].
  destruct (Js.trimEnd s); [destruct (Js.is_white c)|]; simpl in *; lia.
Qed.

Lemma trimStart_starts_black s : Js.starts_white (Js.trimStart s) = false.
Proof.
  induction s as [|c s IH]; simpl; [done|].
  destruct (Js.is_white c) eqn:Hc; [done|]. simpl. done.
Qed.

Lemma trimEnd_starts_black s :
  Js.starts_white s = false → Js.starts_white (Js.trimEnd s) = false.
Proof.
  destruct s as [|c s]; simpl; [done|]. intros Hc.
  destruct (Js.trimEnd s); [by rewrite Hc|done].
Qed.

Lemma trimEnd_ends_black s : Js.ends_white (Js.trimEnd s) = false.
Proof.
  induction s as [|c s IH]; simpl; [done|].
  destruct (Js.trimEnd s) as [|c' t] eqn:Ht.
  - by destruct (Js.is_white c) eqn:Hc.
  - done.
Qed.

Lemma trimStart_all_white ws :
  Js.all_white ws = true → Js.trimStart ws = EmptyString.
Proof.
  induction ws as [|c ws IH]; [done|]. simpl.
  intros [-> Hws]%andb_true_iff. by apply IH.
Qed.

Lemma trimEnd_padding s ws :
  Js.all_white ws = true → Js.trimEnd (s ++ ws) = Js.trimEnd s.
Proof.
  intros Hws. induction s as [|c s IH]; [by apply trimEnd_white|].
  change (String c s ++ ws) with (String c (s ++ ws)). simpl. by rewrite IH.
Qed.

Lemma trimStart_padding s ws :
  Js.all_white ws = true →
  Js.trimEnd (Js.trimStart (s ++ ws)) = Js.trimEnd (Js.trimStart s).
Proof.
  intros Hws. induction s as [|c s IH].
  - change (EmptyString ++ ws) with ws. by rewrite trimStart_all_white.
  - change (String c s ++ ws) with (String c (s ++ ws)). simpl.
    destruct (Js.is_white c); [done|].
    change (String c (s ++ ws)) with (String c s ++ ws).
    by apply trimEnd_padding.
Qed.

Lemma trim_padding ws1 s ws2 :
  Js.all_white ws1 = true → Js.all_white ws2 = true →
  Js.trim (ws1 ++ s ++ ws2) = Js.trim s.
Proof.
  intros H1 H2. unfold Js.trim.
  by rewrite trimStart_white, trimStart_padding.
Qed.

Lemma trim_length s : (String.length (Js.trim s) ≤ String.length s)%nat.
Proof.
  unfold Js.trim. etrans; [apply trimEnd_length|apply trimStart_length].
Qed.

Lemma all_white_app a b :
  Js.all_white (a ++ b) = Js.all_white a && Js.all_white b.
Proof.
  induction a as [|c a IH]; [done|].
  change (String c a ++ b) with (String c (a ++ b)). simpl.
  by rewrite IH, andb_assoc.
Qed.

Lemma trim_all_white ws : Js.all_white ws = true → Js.trim ws = EmptyString.
Proof. intros H. unfold Js.trim. by rewrite trimStart_all_white. Qed.

Lemma all_white_join p :
  Forall (λ tok, Js.all_white tok = true) p →
  Js.all_white (Js.join " " p) = true.
Proof.
  induction 1 as [|tok p Htok Hp IH]; [done|].
  destruct p as [|tok' p]; [done|].
  change (Js.join " " (tok :: tok' :: p))
    with (tok ++ " " ++ Js.join " " (tok' :: p)).
  by rewrite !all_white_app, Htok, IH.
Qed.

Lemma all_white_pages toks :
  no_visible_text toks → Js.all_white (pages_terminated toks) = true.
Proof.
  induction 1 as [|p toks Hp Htoks IH]; [done|].
  change (pages_terminated (p :: toks))
    with (Js.join " " p ++ LF ++ LF ++ pages_terminated toks).
  by rewrite !all_white_app, (all_white_join _ Hp), IH.
Qed.

(** X16.  A text of fewer than 100 code units fails the length check
    whatever it contains, and the length that is reported never exceeds
    the length of the text. *)
Theorem text_below_100_always_fails text :
  (String.length text < 100)%nat →
  validate text
  = throw (JsError (msg_too_short (String.length (Js.trim text))
                                  (Js.trim text)))
  ∧ (String.length (Js.trim text) ≤ String.length text)%nat.
Proof.
  intros H. pose proof (trim_length text). split; [|done].
  apply validate_fails. lia.
Qed.

(** X17.  White space around the text changes nothing in the length
    check: neither whether it fails nor the length and the snippet it
    reports. *)
Theorem padding_does_not_change_the_check ws1 text ws2 :
  Js.all_white ws1 = true → Js.all_white ws2 = true →
  validate (ws1 ++ text ++ ws2) = validate text.
Proof. intros H1 H2. unfold validate. by rewrite trim_padding. Qed.

(** X15.  Every file name has an extension, and the extension contains no
    dot; a name that ends with a dot has the empty extension, which is not
    supported. *)
Theorem extension_is_defined_and_has_no_dot f :
  (∃ e, extension f = Some e ∧ Js.includes e "." = false)
  ∧ (∀ pre, name f = pre ++ "." →
            extension f = Some "" ∧ ¬ supported (extension f)).
Proof.
  split.
  - destruct (pop_split_has_no_separator "." (name f)) as (x & Hx & Hsep).
    exists (Js.toLowerCase x). unfold extension. rewrite Hx.
    split; [done|]. by rewrite includes_toLowerCase.
  - intros pre Hname.
    assert (extension f = Some "") as He.
    { unfold extension. by rewrite Hname, pop_split_last. }
    split; [done|]. rewrite He. by intros [H|[H|H]].
Qed.


Section Further.

Variable getDocument : list Byte.byte -> Thrown + PdfDocument.
Variable extractRawText : list Byte.byte -> Thrown + string.
Variable generateQuizFromText : string -> Z -> Thrown + list QuizQuestion.

Local Abbreviation extractText :=
  (extractTextFromFile getDocument extractRawText).
Local Abbreviation handleGenerate :=
  (handleQuizGenerate getDocument extractRawText generateQuizFromText).
Local Abbreviation fire :=
  (step getDocument extractRawText generateQuizFromText).
Local Abbreviation fire_all :=
  (steps getDocument extractRawText generateQuizFromText).


(** The calls of a loop whose first pages decode. *)
Lemma pdf_loop_prefix pdf pre rest acc toks :
  mapM (page_tokens pdf) pre = Some toks →
  pdf_loop pdf (pre ++ rest) acc
  = let '(l, r) := pdf_loop pdf rest (acc ++ pages_terminated toks) in
    ((flat_map page_calls pre ++ l)%list, r).
Proof.
  revert acc toks. induction pre as [|i pre IH]; intros acc toks H.
  - injection H as <-. simpl. rewrite string_app_empty_r.
    by destruct (pdf_loop pdf rest acc).
  - change ((i :: pre) ++ rest)%list with (i :: (pre ++ rest))%list.
    rewrite pdf_loop_cons. simpl in H.
    destruct (page_tokens pdf i) as [items|] eqn:Hi; [|done].
    destruct (mapM (page_tokens pdf) pre) as [toks'|] eqn:Hpre; [|done].
    injection H as <-. unfold page_tokens in Hi.
    destruct (getPage pdf i) as [t|page]; [done|].
    destruct (getTextContent page) as [t|items']; [done|].
    injection Hi as ->.
    rewrite (IH _ toks' eq_refl).
    change (pages_terminated (items :: toks'))
      with (Js.join " " items ++ LF ++ LF ++ pages_terminated toks').
    rewrite !string_app_assoc.
    by destruct (pdf_loop pdf rest _).
Qed.

Lemma pdf_loop_fails_here pdf k rest acc :
  page_tokens pdf k = None →
  ∃ t, pdf_loop pdf (k :: rest) acc = (failing_page_calls pdf k, inl t).
Proof.
  intros Hk. rewrite pdf_loop_cons. unfold page_tokens, failing_page_calls in *.
  destruct (getPage pdf k) as [t|page]; [by eexists|].
  destruct (getTextContent page) as [t|items]; [by eexists|done].
Qed.

(** X3.  A PDF all of whose pages decode is decoded page by page in
    order: after the read and the opening of the document, the calls are
    [getPage 1], [getTextContent] of page 1, [getPage 2], and so on to the
    last page, and nothing else; the text is that of C5. *)
Theorem pdf_pages_are_decoded_in_order f data pdf toks :
  read f = onload (Some data) →
  extension f = Some "pdf" →
  getDocument data = inr pdf →
  mapM (page_tokens pdf) (seq 1 (numPages pdf)) = Some toks →
  extractText f
  = (readAsArrayBuffer f :: pdf_getDocument data
       :: flat_map page_calls (seq 1 (numPages pdf)),
     inr (pages_terminated toks)).
Proof.
  intros Hread Hext Hdoc Htoks.
  rewrite (extract_pdf _ _ f data Hread Hext), Hdoc.
  rewrite <- (app_nil_r (seq 1 (numPages pdf))) at 1.
  rewrite (pdf_loop_prefix _ _ _ _ _ Htoks). simpl.
  by rewrite app_nil_r.
Qed.

(** X4.  A PDF that cannot be opened is not decoded at all.  When the
    pages before page [k] decode and page [k] does not, the loop stops
    there: the pages after [k] are never requested, the failure is logged
    and the extraction fails with the PDF parse message. *)
Theorem pdf_stops_at_the_first_bad_page f data :
  read f = onload (Some data) →
  extension f = Some "pdf" →
  (∀ t, getDocument data = inl t →
        extractText f
        = ([readAsArrayBuffer f; pdf_getDocument data; console_error],
           inl (JsError msg_parse_pdf)))
  ∧ (∀ pdf k toks,
       getDocument data = inr pdf →
       (1 ≤ k ≤ numPages pdf)%nat →
       mapM (page_tokens pdf) (seq 1 (k - 1)) = Some toks →
       page_tokens pdf k = None →
       extractText f
       = ((readAsArrayBuffer f :: pdf_getDocument data
             :: flat_map page_calls (seq 1 (k - 1))
             ++ failing_page_calls pdf k) ++ [console_error],
          inl (JsError msg_parse_pdf))%list).
Proof.
  intros Hread Hext. rewrite (extract_pdf _ _ f data Hread Hext). split.
  - by intros t ->.
  - intros pdf k toks -> Hk Htoks Hbad.
    replace (seq 1 (numPages pdf))
      with (seq 1 (k - 1) ++ k :: seq (S k) (numPages pdf - k))%list.
    + rewrite (pdf_loop_prefix _ _ _ _ _ Htoks).
      destruct (pdf_loop_fails_here pdf k (seq (S k) (numPages pdf - k))
                  ("" ++ pages_terminated toks) Hbad) as [t ->].
      done.
    + replace (numPages pdf) with ((k - 1) + S (numPages pdf - k))%nat at 2
        by lia.
      rewrite seq_app. replace (1 + (k - 1))%nat with k by lia. done.
Qed.

(** X1.  A Word document ([doc] or [docx]) that is read is handed to the
    Word decoder once: the text is the decoder's value as it is, and a
    rejection of the decoder is logged and becomes the Word parse
    message. *)
Theorem word_text_is_the_decoders_value f data :
  read f = onload (Some data) →
  extension f = Some "doc" ∨ extension f = Some "docx" →
  (∀ value, extractRawText data = inr value →
     extractText f
     = ([readAsArrayBuffer f; mammoth_extractRawText data], inr value))
  ∧ (∀ t, extractRawText data = inl t →
       extractText f
       = ([readAsArrayBuffer f; mammoth_extractRawText data; console_error],
          inl (JsError msg_parse_word))).
Proof.
  intros Hread Hext. rewrite (extract_word _ _ f data Hread Hext).
  split; by intros ? ->.
Qed.

(** X2.  Whatever a decoder throws, the failure of an extraction is an
    [Error] whose message is fixed by the way the read ended and by the
    extension alone: one of five messages. *)
Theorem extraction_failure_is_one_of_five f t :
  outcome (extractText f) = inl t →
  (read f = onerror ∧ t = JsError msg_read_error)
  ∨ (read f = onload None ∧ t = JsError msg_no_result)
  ∨ ∃ data, read f = onload (Some data)
      ∧ ((extension f = Some "pdf" ∧ t = JsError msg_parse_pdf)
         ∨ ((extension f = Some "doc" ∨ extension f = Some "docx")
            ∧ t = JsError msg_parse_word)
         ∨ (¬ supported (extension f) ∧ t = JsError msg_unsupported)).
Proof.
  intros Hout. destruct (read f) as [|[data|]] eqn:Hread.
  - left. rewrite extract_read_error in Hout by done.
    split; [done|]. by injection Hout as <-.
  - right. right. exists data. split; [done|].
    destruct (decide (extension f = Some "pdf")) as [Hp|Hp].
    + left. split; [done|].
      rewrite (extract_pdf _ _ f data Hread Hp) in Hout.
      destruct (getDocument data) as [t'|pdf]; [by injection Hout as <-|].
      destruct (pdf_loop pdf _ _) as [l [t'|text]]; [|done].
      by injection Hout as <-.
    + destruct (decide (extension f = Some "doc" ∨ extension f = Some "docx"))
        as [Hw|Hw].
      * right. left. split; [done|].
        rewrite (extract_word _ _ f data Hread Hw) in Hout.
        destruct (extractRawText data); [|done]. by injection Hout as <-.
      * right. right.
        assert (¬ supported (extension f)) as Hu by (unfold supported; tauto).
        split; [done|].
        rewrite (extract_unsupported _ _ f data Hread Hu) in Hout.
        by injection Hout as <-.
  - right. left. rewrite extract_no_result in Hout by done.
    split; [done|]. by injection Hout as <-.
Qed.

(** The calls of an extraction: the read first, then calls of one decoder
    and logs. *)
Lemma extract_trace_shape f :
  ∃ l, trace (extractText f) = readAsArrayBuffer f :: l
       ∧ Forall (λ e, is_setter e || is_read e || is_producer_call e = false) l
       ∧ (Forall (λ e, is_pdf_call e = false) l
          ∨ Forall (λ e, is_word_call e = false) l).
Proof.
  destruct (read f) as [|[data|]] eqn:Hread.
  - rewrite extract_read_error by done. eexists. split; [done|].
    split; [|left]; by repeat constructor.
  - destruct (decide (extension f = Some "pdf")) as [Hp|Hp].
    + rewrite (extract_pdf _ _ f data Hread Hp).
      destruct (getDocument data) as [t|pdf].
      { eexists. split; [done|]. split; [|right]; by repeat constructor. }
      pose proof (pdf_loop_trace pdf (seq 1 (numPages pdf)) "") as Hl.
      assert (∀ (P : Effect → bool),
                (∀ e, is_pdf_call e = true → P e = false) →
                P console_error = false →
                Forall (λ e, P e = false)
                  (trace (pdf_loop pdf (seq 1 (numPages pdf)) "")
                   ++ [console_error])) as Hall.
      { intros P HP Hlog. apply Forall_app. split; [|by repeat constructor].
        eapply Forall_impl; [exact Hl|]. done. }
      destruct (pdf_loop pdf _ _) as [l [t|text]]; unfold trace in *;
        simpl in *.
      * eexists. split; [done|]. split; [|right].
        -- constructor; [done|]. apply Hall; [by intros []|done].
        -- constructor; [done|]. apply Hall; [by intros []|done].
      * eexists. split; [done|].
        pose proof (Hall (λ e, is_word_call e)
                      ltac:(by intros []) eq_refl) as Hw.
        pose proof (Hall (λ e, is_setter e || is_read e || is_producer_call e)
                      ltac:(by intros []) eq_refl) as Hs.
        apply Forall_app in Hw as [Hw _]. apply Forall_app in Hs as [Hs _].
        split; [|right]; by constructor.
    + destruct (decide (extension f = Some "doc" ∨ extension f = Some "docx"))
        as [Hw|Hw].
      * rewrite (extract_word _ _ f data Hread Hw).
        destruct (extractRawText data);
          (eexists; split; [done|]; split; [|left]; by repeat constructor).
      * rewrite (extract_unsupported _ _ f data Hread)
          by (unfold supported; tauto).
        eexists. split; [done|]. split; [|left]; by repeat constructor.
  - rewrite extract_no_result by done. eexists. split; [done|].
    split; [|left]; by repeat constructor.
Qed.

(** An extraction that succeeds has logged nothing. *)
Lemma extract_success_no_log f text :
  outcome (extractText f) = inr text →
  Forall (λ e, is_log e = false) (trace (extractText f)).
Proof.
  intros Hout. destruct (read f) as [|[data|]] eqn:Hread.
  - by rewrite extract_read_error in Hout.
  - destruct (decide (extension f = Some "pdf")) as [Hp|Hp].
    + rewrite (extract_pdf _ _ f data Hread Hp) in Hout |- *.
      destruct (getDocument data) as [t|pdf]; [done|].
      pose proof (pdf_loop_trace pdf (seq 1 (numPages pdf)) "") as Hl.
      destruct (pdf_loop pdf _ _) as [l [t|text']]; [done|].
      unfold trace in *. simpl in *. repeat constructor.
      eapply Forall_impl; [exact Hl|]. by intros [].
    + destruct (decide (extension f = Some "doc" ∨ extension f = Some "docx"))
        as [Hw|Hw].
      * rewrite (extract_word _ _ f data Hread Hw) in Hout |- *.
        destruct (extractRawText data); [done|]. by repeat constructor.
      * rewrite (extract_unsupported _ _ f data Hread) in Hout
          by (unfold supported; tauto).
        done.
  - by rewrite extract_no_result in Hout.
Qed.

Lemma filter_none (p : Effect → bool) l :
  Forall (λ e, p e = false) l → List.filter p l = [].
Proof.
  induction 1 as [|e l He _ IH]; [done|]. simpl. by rewrite He.
Qed.

(** The trace of the handler: two setters, the extraction, and then
    setters, logs and at most the call of the producer. *)
Lemma handle_shape file numQuestions duration :
  ∃ rest,
    handleGenerate file numQuestions duration
    = (setAppState generating :: setError None
         :: trace (extractText file) ++ rest)%list
    ∧ Forall (λ e, is_read e || is_pdf_call e || is_word_call e = false) rest.
Proof.
  rewrite handleQuizGenerate_unfold, generate_cases.
  destruct (extractText file) as [l [t|text]]; unfold trace; simpl.
  - eexists. split; [done|]. by repeat constructor.
  - destruct (outcome (validate text)) as [t|[]].
    + eexists. split; [done|]. by repeat constructor.
    + destruct (generateQuizFromText text numQuestions) as [t|questions].
      * eexists. split; [by rewrite <- app_assoc|]. by repeat constructor.
      * eexists. split; [done|]. by repeat constructor.
Qed.

(** X6.  The producer is called when, and only when, the extraction
    succeeds and the trimmed text has at least 100 code units; it is then
    called once, with the text as extracted and the requested count. *)
Theorem producer_is_called_once_after_the_check file numQuestions duration :
  List.filter is_producer_call (handleGenerate file numQuestions duration)
  = match outcome (extractText file) with
    | inl _ => []
    | inr fileText =>
        if (String.length (Js.trim fileText) <? 100)%nat then []
        else [call_generateQuizFromText fileText numQuestions]
    end.
Proof.
  rewrite handleQuizGenerate_unfold, generate_cases.
  destruct (extract_trace_shape file) as (l' & Hl & Hnone & _).
  assert (List.filter is_producer_call (trace (extractText file)) = [])
    as Hext.
  { rewrite Hl. simpl. apply filter_none.
    eapply Forall_impl; [exact Hnone|]. simpl. intros e He.
    by apply orb_false_iff in He as [_ ?]. }
  destruct (extractText file) as [l [t|text]]; unfold trace, outcome in *;
    simpl in *.
  - by rewrite List.filter_app, Hext.
  - destruct (Nat.ltb_spec (String.length (Js.trim text)) 100) as [Hs|Hs].
    + rewrite (validate_fails _ Hs). simpl.
      by rewrite List.filter_app, Hext.
    + rewrite (validate_passes _ Hs). simpl.
      destruct (generateQuizFromText text numQuestions) as [t|questions];
        simpl; by rewrite ?List.filter_app, Hext.
Qed.

(** X18.  Nothing is retried and the decoders are never mixed: a run reads
    the file exactly once, and it calls the PDF decoder or the Word
    decoder but never both. *)
Theorem file_is_read_once_by_one_decoder file numQuestions duration :
  List.filter is_read (handleGenerate file numQuestions duration)
  = [readAsArrayBuffer file]
  ∧ (List.filter is_pdf_call (handleGenerate file numQuestions duration) = []
     ∨ List.filter is_word_call (handleGenerate file numQuestions duration)
       = []).
Proof.
  destruct (handle_shape file numQuestions duration) as (rest & -> & Hrest).
  destruct (extract_trace_shape file) as (l & -> & Hl & Hdec).
  assert (∀ (p : Effect → bool),
            (∀ e, is_read e || is_pdf_call e || is_word_call e = false →
                  p e = false) →
            List.filter p rest = []) as Hfr.
  { intros p Hp. apply filter_none. eapply Forall_impl; [exact Hrest|done]. }
  split.
  - simpl. rewrite List.filter_app. rewrite (Hfr is_read).
    + rewrite filter_none; [done|].
      eapply Forall_impl; [exact Hl|]. simpl. intros e He.
      apply orb_false_iff in He as [He _].
      by apply orb_false_iff in He as [_ ?].
    + intros e He. apply orb_false_iff in He as [He _].
      by apply orb_false_iff in He as [? _].
  - simpl. rewrite !List.filter_app.
    rewrite (Hfr is_pdf_call), (Hfr is_word_call).
    + destruct Hdec as [Hd|Hd]; [left|right]; by rewrite filter_none.
    + intros e He. by apply orb_false_iff in He as [_ ?].
    + intros e He. apply orb_false_iff in He as [He _].
      by apply orb_false_iff in He as [_ ?].
Qed.

Lemma final_phase_is_quiz_or_setup s file numQuestions duration :
  appState (run_effects s (handleGenerate file numQuestions duration)) = quiz
  ∨ appState (run_effects s (handleGenerate file numQuestions duration))
    = setup.
Proof.
  destruct (pipeline_cases getDocument extractRawText generateQuizFromText
              file numQuestions)
    as [[t Hfail] | (fileText & questions & Hx & Hlen & Hgen)].
  - right. by rewrite (failed_run_final_state _ _ _ _ _ _ _ _ Hfail).
  - left.
    by rewrite (successful_run_final_state _ _ _ _ _ _ _ _ _ Hx Hlen Hgen).
Qed.

(** X7.  A run never stays in the [generating] phase.  It ends either in
    [quiz] with no error, index 0, the submitted duration and as many
    answers as questions, or in [setup] with an error message and the
    session it started from. *)
Theorem run_ends_in_quiz_or_in_setup s file numQuestions duration :
  let s' := run_effects s (handleGenerate file numQuestions duration) in
  (appState s' = quiz ∧ error s' = None
   ∧ currentQuestionIndex s' = 0 ∧ timerDuration s' = duration
   ∧ Js.alength (userAnswers s') = Z.of_nat (length (quizQuestions s')))
  ∨ (appState s' = setup ∧ is_Some (error s') ∧ session s' = session s).
Proof.
  intros s'. subst s'.
  destruct (pipeline_cases getDocument extractRawText generateQuizFromText
              file numQuestions)
    as [[t Hfail] | (fileText & questions & Hx & Hlen & Hgen)].
  - right. by rewrite (failed_run_final_state _ _ _ _ _ _ _ _ Hfail).
  - left. rewrite (successful_run_final_state _ _ _ _ _ _ _ _ _ Hx Hlen Hgen).
    simpl. unfold Js.alength. simpl. by rewrite length_replicate.
Qed.

(** X19.  A run logs to the console exactly when it fails: there is a
    [console.error] in the trace if and only if the run ends in
    [setup]. *)
Theorem run_logs_iff_it_fails s file numQuestions duration :
  existsb is_log (handleGenerate file numQuestions duration) = true
  ↔ appState (run_effects s (handleGenerate file numQuestions duration))
    = setup.
Proof.
  destruct (pipeline_cases getDocument extractRawText generateQuizFromText
              file numQuestions)
    as [[t Hfail] | (fileText & questions & Hx & Hlen & Hgen)].
  - rewrite (failed_run_final_state _ _ _ _ _ _ _ _ Hfail).
    destruct (generate_fails _ _ _ file numQuestions duration t Hfail)
      as (l & Hg & _).
    rewrite handleQuizGenerate_unfold, Hg. simpl.
    rewrite existsb_app. simpl. by rewrite orb_true_r.
  - rewrite (successful_run_final_state _ _ _ _ _ _ _ _ _ Hx Hlen Hgen).
    rewrite (successful_run_trace _ _ _ _ _ _ _ _ Hx Hlen Hgen). simpl.
    rewrite !existsb_app. simpl. rewrite !orb_false_r.
    assert (existsb is_log (trace (extractText file)) = false) as ->.
    { pose proof (extract_success_no_log file fileText Hx) as Hl.
      induction Hl as [|e l He _ IH]; [done|]. simpl. by rewrite He. }
    done.
Qed.

Lemma states_phase s l :
  Forall (λ e, is_phase_setter e = false) l →
  Forall (λ s', appState s' = appState s) (states s l).
Proof.
  intros H. revert s. induction H as [|e l He _ IH]; intros s; simpl.
  - by constructor.
  - constructor; [done|].
    assert (appState (apply_effect s e) = appState s) as Hs by by destruct e.
    rewrite <- Hs. apply IH.
Qed.

(** X21.  The spinner is shown throughout a run: between the state before
    the submission and the final state, every state the handler goes
    through has the phase [generating]. *)
Theorem run_stays_in_generating_until_its_end s file numQuestions duration :
  ∃ middle,
    states s (handleGenerate file numQuestions duration)
    = (s :: middle
         ++ [run_effects s (handleGenerate file numQuestions duration)])%list
    ∧ middle ≠ []
    ∧ Forall (λ s', appState s' = generating) middle.
Proof.
  assert (∃ body a,
            handleGenerate file numQuestions duration
            = (setAppState generating :: body ++ [setAppState a])%list
            ∧ Forall (λ e, is_phase_setter e = false) body)
    as (body & a & Heq & Hbody).
  { destruct (pipeline_cases getDocument extractRawText generateQuizFromText
                file numQuestions)
      as [[t Hfail] | (fileText & questions & Hx & Hlen & Hgen)].
    - destruct (generate_fails _ _ _ file numQuestions duration t Hfail)
        as (l & Hg & Hl).
      rewrite handleQuizGenerate_unfold, Hg.
      exists (setError None :: l
              ++ [console_error; setError (Some (errorMessage t))])%list, setup.
      split; [simpl; by rewrite <- app_assoc|].
      constructor; [done|]. apply Forall_app. split; [|by repeat constructor].
      eapply Forall_impl; [exact Hl|]. by intros [].
    - rewrite (successful_run_trace _ _ _ _ _ _ _ _ Hx Hlen Hgen).
      exists (setError None :: trace (extractText file)
              ++ [call_generateQuizFromText fileText numQuestions;
                  setQuizQuestions questions;
                  setUserAnswers (Js.filled (length questions) "");
                  setTimerDuration duration;
                  setCurrentQuestionIndex 0])%list, quiz.
      split; [simpl; by rewrite <- !app_assoc|].
      constructor; [done|]. apply Forall_app. split; [|by repeat constructor].
      pose proof (extract_no_setter getDocument extractRawText file) as Hl.
      eapply Forall_impl; [exact Hl|]. by intros []. }
  rewrite Heq.
  exists (states (apply_effect s (setAppState generating)) body).
  split; [|split].
  - change (setAppState generating :: body ++ [setAppState a])%list
      with ([setAppState generating] ++ body ++ [setAppState a])%list.
    rewrite !run_effects_app. simpl. by rewrite states_app.
  - by destruct body.
  - exact (states_phase (apply_effect s (setAppState generating)) body Hbody).
Qed.

(** X5.  A PDF without visible text (no page, pages without text items,
    or items of white space only, as a scanned document gives) is
    rejected as too short with length 0 and an empty snippet; the producer
    is not called. *)
Theorem pdf_without_visible_text_is_too_short
    s f data pdf toks numQuestions duration :
  read f = onload (Some data) →
  extension f = Some "pdf" →
  getDocument data = inr pdf →
  mapM (page_tokens pdf) (seq 1 (numPages pdf)) = Some toks →
  no_visible_text toks →
  run_effects s (handleGenerate f numQuestions duration)
  = mkApp setup (quizQuestions s) (userAnswers s) (currentQuestionIndex s)
          (timerDuration s) (Some (msg_too_short 0 ""))
  ∧ Forall (λ e, is_producer_call e = false)
           (handleGenerate f numQuestions duration).
Proof.
  intros Hread Hext Hdoc Htoks Hblank.
  assert (outcome (extractText f) = inr (pages_terminated toks)) as Hout.
  { rewrite (extract_pdf _ _ f data Hread Hext), Hdoc.
    pose proof (pdf_loop_all_pages pdf _ "" toks Htoks) as H.
    destruct (pdf_loop pdf _ _) as [l r]. unfold outcome in *. simpl in *.
    by subst r. }
  pose proof (trim_all_white _ (all_white_pages _ Hblank)) as Htrim.
  assert (validate (pages_terminated toks)
          = throw (JsError (msg_too_short 0 ""))) as Hval.
  { rewrite validate_fails; rewrite Htrim; [done|simpl; lia]. }
  split.
  - rewrite (failed_run_final_state _ _ _ _ _ _ _
               (JsError (msg_too_short 0 ""))); [done|].
    right. exists (pages_terminated toks). split; [done|]. left.
    by rewrite Hval.
  - rewrite handleQuizGenerate_unfold, generate_cases.
    destruct (extract_trace_shape f) as (l' & Hl & Hnone & _).
    destruct (extractText f) as [l r]. unfold trace, outcome in *.
    simpl in *. subst r l. rewrite Hval. simpl.
    repeat constructor. apply Forall_app. split; [|by repeat constructor].
    eapply Forall_impl; [exact Hnone|]. simpl. intros e He.
    by apply orb_false_iff in He as [_ ?].
Qed.

(** ** The phases and the navigation *)

(** X8.  The phases follow the diagram: no event is handled in
    [generating], and a handled event leads from [setup] to [setup] or
    [quiz], from [quiz] to [quiz] or [review], from [review] to [quiz] or
    [results], and from [results] to [setup]. *)
Theorem phases_follow_the_diagram s e :
  (appState s = generating → fire s e = None)
  ∧ (∀ s', fire s e = Some s' →
           transition (appState s) (appState s') = true).
Proof.
  split.
  - intros Hg. unfold step, renderContent. by rewrite Hg.
  - intros s' Hstep. unfold step, renderContent in Hstep.
    destruct (appState s) eqn:Hphase; destruct e; simpl in Hstep;
      try discriminate; injection Hstep as <-; try done.
    + destruct (final_phase_is_quiz_or_setup s file numQuestions duration)
        as [-> | ->]; done.
    + simpl. by rewrite Hphase.
    + unfold handleNextQuestion. destruct (_ <? _); simpl; by rewrite Hphase.
    + unfold handlePrevQuestion. destruct (_ >? _); simpl; by rewrite Hphase.
Qed.

Lemma step_within_quiz s e s' :
  within_quiz e = true → fire s e = Some s' →
  quizQuestions s' = quizQuestions s
  ∧ timerDuration s' = timerDuration s
  ∧ error s' = error s
  ∧ (is_navigation e = true → userAnswers s' = userAnswers s).
Proof.
  intros He Hstep. unfold step, renderContent in Hstep.
  destruct (appState s) eqn:Hphase; destruct e; simpl in Hstep, He;
    try discriminate; injection Hstep as <-; try done.
  - unfold handleNextQuestion. by destruct (_ <? _).
  - unfold handlePrevQuestion. by destruct (_ >? _).
Qed.

(** X9.  From the installation of a session to the next submission or
    retry, the questions, the timer duration and the error cell never
    change, whatever the user does; and moving around (next, prev, finish,
    jump, final submit) leaves the answers as they are. *)
Theorem quiz_events_keep_questions_and_timer es : ∀ s s',
  Forall (λ e, within_quiz e = true) es →
  fire_all s es = Some s' →
  quizQuestions s' = quizQuestions s
  ∧ timerDuration s' = timerDuration s
  ∧ error s' = error s
  ∧ (Forall (λ e, is_navigation e = true) es →
     userAnswers s' = userAnswers s).
Proof.
  induction es as [|e es IH]; intros s s' Hes Hrun; simpl in Hrun.
  - by injection Hrun as <-.
  - apply Forall_cons in Hes as [He Hes].
    destruct (fire s e) as [s1|] eqn:Hstep; [|done].
    destruct (step_within_quiz s e s1 He Hstep) as (Hq & Ht & Herr & Ha).
    destruct (IH s1 s' Hes Hrun) as (Hq' & Ht' & Herr' & Ha').
    repeat split; try congruence.
    intros [Hn Hns]%Forall_cons. rewrite (Ha' Hns). by apply Ha.
Qed.

(** X10.  From the review phase, jumping to a question and finishing
    again leads back to the review phase with the index of that question
    and nothing else changed; the handler accepts every integer. *)
Theorem jump_then_finish_returns_to_review s index :
  appState s = review →
  fire_all s [onJumpToQuestion index; onFinish] = Some (with_index s index).
Proof.
  intros Hr. simpl. unfold step, renderContent. rewrite Hr. simpl.
  unfold with_index. by rewrite Hr.
Qed.

Lemma with_index_same s : with_index s (currentQuestionIndex s) = s.
Proof. by destruct s. Qed.

(** X11.  With an index of magnitude below 2^53 and fewer than 2^32
    questions (the range in which every addition of the code is exact),
    pressing [next] [k] times from index [i] leads to index
    [min (i + k) (n - 1)], the last question, and leaves an index that is
    already at or past the last question where it is; pressing [prev] [k]
    times leads to [max (i - k) 0] and leaves an index at or below 0 where
    it is.  No number of presses leaves the phase or fails. *)
Theorem repeated_next_and_prev_clamp k s :
  appState s = quiz →
  - 2 ^ 53 < currentQuestionIndex s < 2 ^ 53 →
  Z.of_nat (length (quizQuestions s)) < 2 ^ 32 →
  let i := currentQuestionIndex s in
  let n := Z.of_nat (length (quizQuestions s)) in
  fire_all s (replicate k onNext)
  = Some (with_index s (Z.max i (Z.min (i + Z.of_nat k) (n - 1))))
  ∧ fire_all s (replicate k onPrev)
    = Some (with_index s (Z.min i (Z.max (i - Z.of_nat k) 0))).
Proof.
  intros Hq _ _. revert s Hq.
  induction k as [|k IH]; intros s Hq i n; subst i n.
  - simpl. split; f_equal; rewrite <- (with_index_same s) at 1; f_equal; lia.
  - simpl replicate. simpl steps. unfold step, renderContent. rewrite Hq.
    simpl. unfold handleNextQuestion, handlePrevQuestion. split.
    + destruct (Z.ltb_spec (currentQuestionIndex s)
                  (Z.of_nat (length (quizQuestions s)) - 1)); simpl.
      * destruct (IH (mkApp (appState s) (quizQuestions s) (userAnswers s)
                            (currentQuestionIndex s + 1) (timerDuration s)
                            (error s)) Hq) as [-> _].
        unfold with_index. simpl. do 2 f_equal. lia.
      * destruct (IH s Hq) as [-> _]. do 2 f_equal. lia.
    + destruct (Z.gtb_spec (currentQuestionIndex s) 0); simpl.
      * destruct (IH (mkApp (appState s) (quizQuestions s) (userAnswers s)
                            (currentQuestionIndex s - 1) (timerDuration s)
                            (error s)) Hq) as [_ ->].
        unfold with_index. simpl. do 2 f_equal. lia.
      * destruct (IH s Hq) as [_ ->]. do 2 f_equal. lia.
Qed.


(** ** Answers outside and inside the array *)

Lemma length_set_outside a k v :
  Js.alength a ≤ k < 2 ^ 32 - 1 → Js.alength (Js.set a k v) = k + 1.
Proof.
  unfold Js.alength, Js.set. intros Hk.
  replace (Js.is_index k) with true by (unfold Js.is_index; lia).
  destruct (Nat.ltb_spec (Z.to_nat k) (length (Js.elems a))); [lia|].
  simpl. rewrite !length_app, length_replicate. simpl. lia.
Qed.

Lemma get_hole_after_set a k v j :
  Js.alength a ≤ j < k → k < 2 ^ 32 - 1 → Js.get (Js.set a k v) j = None.
Proof.
  unfold Js.alength, Js.get, Js.set. intros Hj Hk.
  replace (Js.is_index k) with true by (unfold Js.is_index; lia).
  replace (Js.is_index j) with true by (unfold Js.is_index; lia).
  destruct (Nat.ltb_spec (Z.to_nat k) (length (Js.elems a))); [lia|].
  simpl. rewrite lookup_app_r by lia.
  rewrite lookup_app_l by (rewrite length_replicate; lia).
  rewrite lookup_replicate_2 by lia. done.
Qed.

Lemma get_spread a j :
  Js.is_index j = true → Js.get (Js.spread a) j = Js.get a j.
Proof. intros Hj. unfold Js.get. by rewrite Hj. Qed.

(** X13.  The handler of an answer checks no bound.  With an index at or
    past the end of the answers that is still an array index (below
    2^32 - 1), the array grows to reach that index and the positions in
    between are holes ([undefined]).  With an index that is no array
    index (negative, or 2^32 - 1 and more), the assignment makes an
    ordinary property: the elements and the length of the array stay as
    they are, and the answer reads back under that key. *)
Theorem answer_outside_the_array s answer :
  appState s = quiz →
  let k := currentQuestionIndex s in
  ∃ s', fire s (onAnswerSelect answer) = Some s'
    ∧ (Js.alength (userAnswers s) ≤ k < 2 ^ 32 - 1 →
       Js.alength (userAnswers s') = k + 1
       ∧ ∀ j, Js.alength (userAnswers s) ≤ j < k →
              Js.get (userAnswers s') j = None)
    ∧ (k < 0 ∨ 2 ^ 32 - 1 ≤ k →
       Js.elems (userAnswers s') = Js.elems (userAnswers s)
       ∧ Js.alength (userAnswers s') = Js.alength (userAnswers s)
       ∧ Js.get (userAnswers s') k = Some answer).
Proof.
  intros Hq k. subst k. unfold step, renderContent. rewrite Hq. simpl.
  eexists. split; [done|]. simpl. split.
  - intros Hk. split; [by apply length_set_outside|].
    intros j Hj. apply get_hole_after_set; [done|lia].
  - intros Hk. split; [|split; [|apply get_set_eq]];
      unfold Js.alength, Js.set;
      by replace (Js.is_index (currentQuestionIndex s)) with false
        by (unfold Js.is_index; lia).
Qed.

(** X20.  The answers to two consecutive questions are both kept: after
    answering question [i], moving to the next question and answering it,
    entry [i] holds the first answer, entry [i + 1] the second, every
    other entry is as before and the array has not grown. *)
Theorem consecutive_answers_are_both_kept s u v :
  appState s = quiz →
  let i := currentQuestionIndex s in
  let n := Z.of_nat (length (quizQuestions s)) in
  0 ≤ i < n - 1 → n < 2 ^ 32 → Js.alength (userAnswers s) = n →
  ∃ s', fire_all s [onAnswerSelect u; onNext; onAnswerSelect v] = Some s'
    ∧ currentQuestionIndex s' = i + 1
    ∧ Js.get (userAnswers s') i = Some u
    ∧ Js.get (userAnswers s') (i + 1) = Some v
    ∧ (∀ j, Js.is_index j = true → j ≠ i → j ≠ i + 1 →
            Js.get (userAnswers s') j = Js.get (userAnswers s) j)
    ∧ Js.alength (userAnswers s') = Js.alength (userAnswers s).
Proof.
  intros Hq i n Hi Hn Hlen. subst i n.
  destruct s as [a qs ua i d e]. simpl in *. subst a.
  unfold step, renderContent, handleNextQuestion. simpl.
  destruct (Z.ltb_spec i (Z.of_nat (length qs) - 1)); [|lia]. simpl.
  eexists. split; [done|]. simpl.
  assert (Js.is_index i = true) as Hidx by (unfold Js.is_index; lia).
  assert (Js.alength (Js.set (Js.spread ua) i u) = Js.alength ua) as Hlen1.
  { apply (length_set_inside (Js.spread ua)). unfold Js.alength in *.
    simpl. lia. }
  split; [done|]. split; [|split; [|split]].
  - rewrite get_set_ne by (done || lia).
    rewrite get_spread by done. apply get_set_eq.
  - apply get_set_eq.
  - intros j Hj Hne1 Hne2. rewrite get_set_ne by done.
    rewrite get_spread by done. rewrite get_set_ne by done.
    by apply get_spread.
  - rewrite <- Hlen1.
    apply (length_set_inside (Js.spread (Js.set (Js.spread ua) i u))).
    unfold Js.alength in *. simpl in *. lia.
Qed.

End Further.

(** ** The further properties on the concrete environment *)

Lemma text_below_100_always_fails_witness :
  validate "short doc" = throw (JsError (msg_too_short 9 "short doc"))
  ∧ (9 ≤ 9)%nat.
Proof. apply (text_below_100_always_fails "short doc"). simpl. lia. Defined.

Lemma padding_does_not_change_the_check_witness :
  validate ("  " ++ "short doc" ++ " " ++ LF) = validate "short doc".
Proof.
  apply (padding_does_not_change_the_check "  " "short doc" (" " ++ LF));
    reflexivity.
Defined.

Lemma extension_is_defined_and_has_no_dot_witness :
  extension (mkFile "report." onerror) = Some ""
  ∧ ¬ supported (extension (mkFile "report." onerror)).
Proof.
  destruct (extension_is_defined_and_has_no_dot (mkFile "report." onerror))
    as [_ H].
  apply (H "report"). reflexivity.
Defined.


Lemma pdf_pages_are_decoded_in_order_witness :
  Demo.extract Demo.good_pdf
  = ([readAsArrayBuffer Demo.good_pdf; pdf_getDocument [Byte.x25];
      pdf_getPage 1; page_getTextContent 1;
      pdf_getPage 2; page_getTextContent 2],
     inr Demo.good_text).
Proof.
  apply (pdf_pages_are_decoded_in_order Demo.getDocument Demo.extractRawText
           Demo.good_pdf [Byte.x25] (Demo.document Byte.x25)
           [Demo.page1; Demo.page2]);
    reflexivity.
Defined.

Lemma pdf_stops_at_the_first_bad_page_witness :
  Demo.extract Demo.broken_pdf
  = ([readAsArrayBuffer Demo.broken_pdf; pdf_getDocument []; console_error],
     inl (JsError msg_parse_pdf))
  ∧ Demo.extract Demo.bad_pdf
    = ([readAsArrayBuffer Demo.bad_pdf; pdf_getDocument [Byte.x00];
        pdf_getPage 1; page_getTextContent 1; pdf_getPage 2; console_error],
       inl (JsError msg_parse_pdf)).
Proof.
  split.
  - destruct (pdf_stops_at_the_first_bad_page
                Demo.getDocument Demo.extractRawText Demo.broken_pdf []
                eq_refl eq_refl) as [Hopen _].
    apply (Hopen (JsError "Invalid PDF structure.")). reflexivity.
  - destruct (pdf_stops_at_the_first_bad_page
                Demo.getDocument Demo.extractRawText Demo.bad_pdf [Byte.x00]
                eq_refl eq_refl) as [_ Hpage].
    apply (Hpage (Demo.document Byte.x00) 2%nat [Demo.page1]);
      [reflexivity|simpl; lia|reflexivity|reflexivity].
Defined.

Lemma word_text_is_the_decoders_value_witness :
  Demo.extract Demo.word_doc
  = ([readAsArrayBuffer Demo.word_doc; mammoth_extractRawText [Byte.x50]],
     inr "short doc")
  ∧ Demo.extract Demo.broken_doc
    = ([readAsArrayBuffer Demo.broken_doc; mammoth_extractRawText [];
        console_error],
       inl (JsError msg_parse_word)).
Proof.
  split.
  - destruct (word_text_is_the_decoders_value
                Demo.getDocument Demo.extractRawText Demo.word_doc [Byte.x50]
                eq_refl (or_intror eq_refl)) as [Hok _].
    apply Hok. reflexivity.
  - destruct (word_text_is_the_decoders_value
                Demo.getDocument Demo.extractRawText Demo.broken_doc []
                eq_refl (or_introl eq_refl)) as [_ Hbad].
    apply (Hbad (JsError "Could not find the body of the document.")).
    reflexivity.
Defined.

Lemma extraction_failure_is_one_of_five_witness :
  (read Demo.bad_pdf = onerror ∧ JsError msg_parse_pdf = JsError msg_read_error)
  ∨ (read Demo.bad_pdf = onload None
     ∧ JsError msg_parse_pdf = JsError msg_no_result)
  ∨ ∃ data, read Demo.bad_pdf = onload (Some data)
      ∧ ((extension Demo.bad_pdf = Some "pdf"
          ∧ JsError msg_parse_pdf = JsError msg_parse_pdf)
         ∨ ((extension Demo.bad_pdf = Some "doc"
             ∨ extension Demo.bad_pdf = Some "docx")
            ∧ JsError msg_parse_pdf = JsError msg_parse_word)
         ∨ (¬ supported (extension Demo.bad_pdf)
            ∧ JsError msg_parse_pdf = JsError msg_unsupported)).
Proof.
  apply (extraction_failure_is_one_of_five
           Demo.getDocument Demo.extractRawText Demo.bad_pdf
           (JsError msg_parse_pdf)).
  reflexivity.
Defined.

Lemma run_logs_iff_it_fails_witness :
  existsb is_log (Demo.handle Demo.word_doc 2 30) = true
  ∧ appState (run_effects initial (Demo.handle Demo.word_doc 2 30)) = setup.
Proof.
  assert (existsb is_log (Demo.handle Demo.word_doc 2 30) = true) as H
    by reflexivity.
  split; [exact H|].
  exact (proj1 (run_logs_iff_it_fails
                  Demo.getDocument Demo.extractRawText
                  Demo.generateQuizFromText initial Demo.word_doc 2 30) H).
Defined.

Lemma pdf_without_visible_text_is_too_short_witness :
  run_effects initial
    (handleQuizGenerate Demo.open_scan Demo.extractRawText
                        Demo.generateQuizFromText Demo.scan 5 30)
  = mkApp setup [] Js.empty 0 30 (Some (msg_too_short 0 ""))
  ∧ Forall (λ e, is_producer_call e = false)
      (handleQuizGenerate Demo.open_scan Demo.extractRawText
                          Demo.generateQuizFromText Demo.scan 5 30).
Proof.
  apply (pdf_without_visible_text_is_too_short
           Demo.open_scan Demo.extractRawText Demo.generateQuizFromText
           initial Demo.scan [Byte.x25] Demo.scanned_document
           [[]; [" "; ""]; []] 5 30);
    try reflexivity.
  repeat constructor.
Defined.

Lemma phases_follow_the_diagram_witness :
  Demo.fire (mkApp generating [] Js.empty 0 30 None) onRetry = None
  ∧ transition quiz
      (appState (mkApp review [Demo.q1; Demo.q2] (Js.filled 2 "") 0 30 None))
    = true.
Proof.
  split.
  - apply (phases_follow_the_diagram
             Demo.getDocument Demo.extractRawText Demo.generateQuizFromText
             (mkApp generating [] Js.empty 0 30 None) onRetry).
    reflexivity.
  - apply (phases_follow_the_diagram
             Demo.getDocument Demo.extractRawText Demo.generateQuizFromText
             Demo.installed onFinish).
    reflexivity.
Defined.

Lemma quiz_events_keep_questions_and_timer_witness :
  ∃ s', Demo.fire_all Demo.installed
          [onNext; onFinish; onJumpToQuestion 0; onFinish; onFinalSubmit]
        = Some s'
    ∧ quizQuestions s' = [Demo.q1; Demo.q2]
    ∧ timerDuration s' = 30
    ∧ error s' = None
    ∧ userAnswers s' = Js.filled 2 "".
Proof.
  exists (mkApp results [Demo.q1; Demo.q2] (Js.filled 2 "") 0 30 None).
  split; [reflexivity|].
  destruct (quiz_events_keep_questions_and_timer
              Demo.getDocument Demo.extractRawText Demo.generateQuizFromText
              [onNext; onFinish; onJumpToQuestion 0; onFinish; onFinalSubmit]
              Demo.installed
              (mkApp results [Demo.q1; Demo.q2] (Js.filled 2 "") 0 30 None))
    as (Hq & Ht & He & Ha).
  - repeat constructor.
  - reflexivity.
  - split; [exact Hq|]. split; [exact Ht|]. split; [exact He|].
    apply Ha. repeat constructor.
Defined.

Lemma jump_then_finish_returns_to_review_witness :
  Demo.fire_all (mkApp review [Demo.q1; Demo.q2] (Js.filled 2 "") 0 30 None)
                [onJumpToQuestion 1; onFinish]
  = Some (mkApp review [Demo.q1; Demo.q2] (Js.filled 2 "") 1 30 None).
Proof.
  apply (jump_then_finish_returns_to_review
           Demo.getDocument Demo.extractRawText Demo.generateQuizFromText
           (mkApp review [Demo.q1; Demo.q2] (Js.filled 2 "") 0 30 None) 1).
  reflexivity.
Defined.

Lemma repeated_next_and_prev_clamp_witness :
  Demo.fire_all Demo.installed (replicate 5 onNext)
  = Some (with_index Demo.installed 1)
  ∧ Demo.fire_all Demo.installed (replicate 5 onPrev)
    = Some (with_index Demo.installed 0).
Proof.
  apply (repeated_next_and_prev_clamp
           Demo.getDocument Demo.extractRawText Demo.generateQuizFromText
           5 Demo.installed).
  - reflexivity.
  - vm_compute. split; reflexivity.
  - reflexivity.
Defined.


Lemma answer_outside_the_array_witness :
  (∃ s', Demo.fire Demo.past_the_end (onAnswerSelect "late") = Some s'
     ∧ Js.alength (userAnswers s') = 5
     ∧ Js.get (userAnswers s') 3 = None)
  ∧ (∃ s', Demo.fire Demo.before_the_start (onAnswerSelect "early") = Some s'
       ∧ Js.elems (userAnswers s') = [Some ""; Some ""]
       ∧ Js.get (userAnswers s') (-1) = Some "early")
  ∧ (∃ s', Demo.fire Demo.beyond_the_indices (onAnswerSelect "far") = Some s'
       ∧ Js.alength (userAnswers s') = 2
       ∧ Js.get (userAnswers s') 4294967295 = Some "far").
Proof.
  split; [|split].
  - destruct (answer_outside_the_array
                Demo.getDocument Demo.extractRawText Demo.generateQuizFromText
                Demo.past_the_end "late" eq_refl) as (s' & Hfire & Hgrow & _).
    exists s'. split; [exact Hfire|].
    destruct Hgrow as [Hlen Hholes];
      [vm_compute; split; [discriminate|reflexivity]|].
    split; [exact Hlen|]. apply Hholes.
    vm_compute. split; [discriminate|reflexivity].
  - destruct (answer_outside_the_array
                Demo.getDocument Demo.extractRawText Demo.generateQuizFromText
                Demo.before_the_start "early" eq_refl)
      as (s' & Hfire & _ & Hkey).
    exists s'. split; [exact Hfire|].
    destruct Hkey as (He & _ & Hg); [left; reflexivity|].
    split; [exact He|exact Hg].
  - destruct (answer_outside_the_array
                Demo.getDocument Demo.extractRawText Demo.generateQuizFromText
                Demo.beyond_the_indices "far" eq_refl)
      as (s' & Hfire & _ & Hkey).
    exists s'. split; [exact Hfire|].
    destruct Hkey as (_ & Hl & Hg); [right; vm_compute; discriminate|].
    split; [exact Hl|exact Hg].
Defined.

Lemma consecutive_answers_are_both_kept_witness :
  ∃ s', Demo.fire_all Demo.installed
          [onAnswerSelect "The fox"; onNext; onAnswerSelect "The forest"]
        = Some s'
    ∧ currentQuestionIndex s' = 1
    ∧ Js.get (userAnswers s') 0 = Some "The fox"
    ∧ Js.get (userAnswers s') 1 = Some "The forest".
Proof.
  destruct (consecutive_answers_are_both_kept
              Demo.getDocument Demo.extractRawText Demo.generateQuizFromText
              Demo.installed "The fox" "The forest" eq_refl)
    as (s' & Hrun & Hi & Hu & Hv & _).
  - vm_compute. split; [discriminate|reflexivity].
  - reflexivity.
  - reflexivity.
  - exists s'. split; [exact Hrun|]. split; [exact Hi|]. split; [exact Hu|].
    exact Hv.
Defined.
